(** * gcal-to-discord: event rendering and event/message reconciliation

    A shallow embedding of [gcal_to_discord/google_calendar.py]
    ([GoogleCalendarEvent.to_discord_embed]) and of
    [gcal_to_discord/discord_client.py] ([DiscordClient]), followed by
    [GoogleCalendarEvent.__init__], [_parse_datetime],
    [GoogleCalendarClient.get_upcoming_events], the [on_ready] handler and
    [CalendarSyncService.sync_once] of [gcal_to_discord/main.py].

    Conventions of the embedding:
    - a Python [str] is a [string]; one element of the string stands for one
      character, [String.length] is [len];
    - a Python [int] is a [Z]; a [len] and a [limit] are [nat];
    - a [dict[str, int]] is a [gmap string Z];
    - [None] is [None]; Python truthiness is written out ([truthy_str],
      [truthy_int], ...);
    - objects the code only calls methods on (a [datetime], the Discord
      [TextChannel]) are records of their methods. *)

From Stdlib Require Import ZArith Ascii String List Lia.
From stdpp Require Import base option gmap strings list fin_maps pretty.

Local Open Scope string_scope.
Local Open Scope Z_scope.

(** ** Python helpers *)

(** [bool(s)] for a [str]. *)
Definition truthy_str (s : string) : bool :=
  match s with
  | EmptyString => false
  | String _ _ => true
  end.

(** [bool(n)] for an [int]. *)
Definition truthy_int (n : Z) : bool := negb (n =? 0).

(** [bool(x)] for an [Optional[str]]. *)
Definition truthy_opt_str (o : option string) : bool :=
  match o with
  | Some s => truthy_str s
  | None => false
  end.

(** [bool(x)] for an [Optional[int]], the result of [dict.get]. *)
Definition truthy_opt_int (o : option Z) : bool :=
  match o with
  | Some n => truthy_int n
  | None => false
  end.

(** [s[:n]]. *)
Fixpoint slice_to (n : nat) (s : string) : string :=
  match n, s with
  | S n', String c s' => String c (slice_to n' s')
  | _, _ => EmptyString
  end.

(** [l[:n]] on a list is [firstn n l]. *)

(** [sep.join(l)]. *)
Fixpoint join (sep : string) (l : list string) : string :=
  match l with
  | [] => ""
  | [x] => x
  | x :: rest => x ++ sep ++ join sep rest
  end.

(** [f"{n}"] for a non-negative [int]. *)
Definition format_nat (n : nat) : string := pretty n.

(** ** [google_calendar.py] *)

(** A [datetime], seen through the one method the code calls on it. *)
Record datetime := { strftime : string -> string }.

(** One entry of [embed["fields"]]. *)
Module EmbedField.
Record t := {
  name : string;
  value : string;
  inline : bool
}.
End EmbedField.

(** The dict built by [to_discord_embed]. *)
Module EmbedDict.
Record t := {
  title : string;
  url : string;
  color : Z;
  fields : list EmbedField.t
}.
End EmbedDict.

Module GoogleCalendarEvent.

Record t := {
  id : string;
  summary : string;
  description : option string;
  location : option string;
  html_link : string;
  start_time : option datetime;
  end_time : option datetime;
  is_all_day : bool;
  attendees : list string
}.

(** The [# Add time field] block: the fields it appends. *)
Definition time_fields (self : t) : list EmbedField.t :=
  match start_time self with
  | Some st =>
      let time_str :=
        if is_all_day self then strftime st "%B %d, %Y"
        else
          let time_str := strftime st "%B %d, %Y at %I:%M %p" in
          match end_time self with
          | Some et => time_str ++ " - " ++ strftime et "%I:%M %p"
          | None => time_str
          end in
      [ {| EmbedField.name := "⏰ Time"; EmbedField.value := time_str; EmbedField.inline := false |} ]
  | None => []
  end.

(** The [# Add location if present] block. *)
Definition location_fields (self : t) : list EmbedField.t :=
  match location self with
  | Some loc =>
      if truthy_str loc
      then [ {| EmbedField.name := "📍 Location"; EmbedField.value := loc; EmbedField.inline := false |} ]
      else []
  | None => []
  end.

(** The conditional expression bound to [desc]. *)
Definition truncate_description (d : string) : string :=
  if (1024 <? String.length d)%nat then slice_to 1021 d ++ "..." else d.

(** The [# Add description if present] block. *)
Definition description_fields (self : t) : list EmbedField.t :=
  match description self with
  | Some d =>
      if truthy_str d
      then [ {| EmbedField.name := "📝 Description";
                EmbedField.value := truncate_description d;
                EmbedField.inline := false |} ]
      else []
  | None => []
  end.

(** The string bound to [attendees_str]. *)
Definition attendees_str (l : list string) : string :=
  let attendees_str := join ", " (firstn 10 l) in
  if (10 <? length l)%nat
  then attendees_str ++ " (+" ++ format_nat (length l - 10) ++ " more)"
  else attendees_str.

(** The [# Add attendees if present] block. *)
Definition attendees_fields (self : t) : list EmbedField.t :=
  match attendees self with
  | [] => []
  | l => [ {| EmbedField.name := "👥 Attendees";
              EmbedField.value := attendees_str l;
              EmbedField.inline := false |} ]
  end.

Definition to_discord_embed (self : t) : EmbedDict.t :=
  {| EmbedDict.title := summary self;
     EmbedDict.url := html_link self;
     EmbedDict.color := 0x4285F4;
     EmbedDict.fields := time_fields self ++ location_fields self
               ++ description_fields self ++ attendees_fields self |}.

End GoogleCalendarEvent.

(** The value of the field of an embed that carries the given name, if any. *)
Definition field_value (nm : string) (e : EmbedDict.t) : option string :=
  EmbedField.value <$>
    List.find (fun f => String.eqb (EmbedField.name f) nm) (EmbedDict.fields e).

(** ** [discord_client.py]: the objects of discord.py the client touches *)

(** The exceptions an awaited Discord call can raise, as the [except] clauses
    of the client tell them apart.  [NotFound] is the subclass of
    [discord.HTTPException] for status 404; [HTTPException] stands for every
    other instance of that class; [OtherException] for every other
    [Exception]. *)
Inductive Exn :=
| NotFound (text : string)
| HTTPException (status : Z) (text : string)
| OtherException (text : string).

(** [isinstance(e, discord.HTTPException)]. *)
Definition is_HTTPException (e : Exn) : bool :=
  match e with
  | NotFound _ | HTTPException _ _ => true
  | OtherException _ => false
  end.

(** [isinstance(e, discord.NotFound)]. *)
Definition is_NotFound (e : Exn) : bool :=
  match e with
  | NotFound _ => true
  | _ => false
  end.

(** [e.status]; only read on instances of [discord.HTTPException]. *)
Definition exn_status (e : Exn) : Z :=
  match e with
  | NotFound _ => 404
  | HTTPException st _ => st
  | OtherException _ => 0
  end.

(** [str(e)]. *)
Definition str (e : Exn) : string :=
  match e with
  | NotFound s | HTTPException _ s | OtherException s => s
  end.

Module User.
Record t := { id : Z; name : string }.
End User.

(** A [discord.Embed]: every attribute may be missing. *)
Module Embed.
Record t := {
  title : option string;
  url : option string;
  color : option Z;
  fields : list EmbedField.t
}.

(** [discord.Embed.from_dict] on the dict of [to_discord_embed]. *)
Definition from_dict (d : EmbedDict.t) : t :=
  {| title := Some (EmbedDict.title d);
     url := Some (EmbedDict.url d);
     color := Some (EmbedDict.color d);
     fields := EmbedDict.fields d |}.
End Embed.

Module Message.
Record t := { id : Z; author : User.t; embeds : list Embed.t }.
End Message.

(** The awaited calls the client issues, in the order it issues them. *)
Inductive Call :=
| CallHistory (limit : nat)
| CallSend (embed : Embed.t)
| CallFetchMessage (message_id : Z)
| CallDelete (message_id : Z).

(** A [discord.TextChannel] is the record of the replies of its methods; a
    reply may depend on the calls issued before it.  [history] yields the
    listed messages and then, if an exception is given, raises it.  [delete]
    is the reply to [message.delete()] for a message fetched from this
    channel. *)
Module TextChannel.
Record t := {
  id : Z;
  name : string;
  history : list Call -> nat -> list Message.t * option Exn;
  send : list Call -> Embed.t -> Exn + Message.t;
  fetch_message : list Call -> Z -> Exn + Message.t;
  delete : list Call -> Message.t -> option Exn
}.
End TextChannel.

(** What [self.logger] is asked to emit. *)
Inductive Level := Debug | Info | Warning | Error.

Inductive LogValue :=
| LStr (s : string)
| LInt (n : Z).

Record LogRecord := {
  level : Level;
  event : string;
  kwargs : list (string * LogValue)
}.

(** ** The client object

    [logger] is the list of records emitted so far and [calls] the list of
    awaited Discord calls issued so far, both oldest first. *)
Record DiscordClient := {
  client_user : option User.t;
  channel : option TextChannel.t;
  event_message_map : gmap string Z;
  _url_to_message_map : gmap string Z;
  logger : list LogRecord;
  calls : list Call
}.

Definition set_event_message_map (f : gmap string Z -> gmap string Z)
    (c : DiscordClient) : DiscordClient :=
  {| client_user := client_user c;
     channel := channel c;
     event_message_map := f (event_message_map c);
     _url_to_message_map := _url_to_message_map c;
     logger := logger c;
     calls := calls c |}.

Definition set_url_to_message_map (f : gmap string Z -> gmap string Z)
    (c : DiscordClient) : DiscordClient :=
  {| client_user := client_user c;
     channel := channel c;
     event_message_map := event_message_map c;
     _url_to_message_map := f (_url_to_message_map c);
     logger := logger c;
     calls := calls c |}.

Definition emit (r : LogRecord) (c : DiscordClient) : DiscordClient :=
  {| client_user := client_user c;
     channel := channel c;
     event_message_map := event_message_map c;
     _url_to_message_map := _url_to_message_map c;
     logger := logger c ++ [r];
     calls := calls c |}.

Definition record_call (k : Call) (c : DiscordClient) : DiscordClient :=
  {| client_user := client_user c;
     channel := channel c;
     event_message_map := event_message_map c;
     _url_to_message_map := _url_to_message_map c;
     logger := logger c;
     calls := calls c ++ [k] |}.

(** ** Coroutines of the client

    A method body runs on the client object and either returns a value or
    raises; the mutations it has made persist in both cases. *)
Inductive Outcome (A : Type) :=
| Return (a : A)
| Raise (e : Exn).
Arguments Return {A} a.
Arguments Raise {A} e.

Definition Coro (A : Type) : Type := DiscordClient -> Outcome A * DiscordClient.

#[global] Instance coro_ret : MRet Coro := fun A a c => (Return a, c).

#[global] Instance coro_bind : MBind Coro := fun A B k m c =>
  match m c with
  | (Return a, c') => k a c'
  | (Raise e, c') => (Raise e, c')
  end.

Definition raise {A} (e : Exn) : Coro A := fun c => (Raise e, c).

(** [try: body  except Exception as e: handler e]. *)
Definition try_except {A} (body : Coro A) (handler : Exn -> Coro A) : Coro A :=
  fun c =>
    match body c with
    | (Return a, c') => (Return a, c')
    | (Raise e, c') => handler e c'
    end.

Definition gets {A} (f : DiscordClient -> A) : Coro A := fun c => (Return (f c), c).

Definition modify (f : DiscordClient -> DiscordClient) : Coro unit :=
  fun c => (Return tt, f c).

Definition log (lv : Level) (ev : string) (kw : list (string * LogValue)) : Coro unit :=
  modify (emit {| level := lv; event := ev; kwargs := kw |}).

(** [await] of a call that replies with a value or raises. *)
Definition await {A} (k : Call) (reply : list Call -> Exn + A) : Coro A :=
  fun c =>
    match reply (calls c) with
    | inr a => (Return a, record_call k c)
    | inl e => (Raise e, record_call k c)
    end.

(** [for x in xs: acc = body acc x], with the loop variables threaded. *)
Fixpoint for_each {A S} (xs : list A) (acc : S) (body : S -> A -> Coro S) : Coro S :=
  match xs with
  | [] => mret acc
  | x :: rest => acc' ← body acc x; for_each rest acc' body
  end.

(** [async for x in it: ...]: the call is issued, the body runs on each
    yielded item, and the exception that ends the iteration, if any, is raised
    after the items yielded before it. *)
Definition async_for {A S} (k : Call) (reply : list Call -> list A * option Exn)
    (acc : S) (body : S -> A -> Coro S) : Coro S :=
  fun c =>
    let '(items, failure) := reply (calls c) in
    (acc' ← for_each items acc body;
     match failure with
     | Some e => raise e
     | None => mret acc'
     end) (record_call k c).

(** [del d[k]]: raises [KeyError] when the key is missing. *)
Definition del_event_message (k : string) : Coro unit :=
  fun c =>
    match event_message_map c !! k with
    | Some _ => (Return tt, set_event_message_map (delete k) c)
    | None => (Raise (OtherException k), c)
    end.

(** [a or b] on two results of [dict.get]. *)
Definition py_or (a b : option Z) : option Z :=
  if truthy_opt_int a then a else b.

(** ** [DiscordClient.rebuild_event_mapping] *)

(** The test of the [if] in the scanning loop:
    [self.client.user and message.author.id == self.client.user.id and message.embeds]. *)
Definition own_message_with_embeds (u : option User.t) (message : Message.t) : bool :=
  match u with
  | Some u =>
      (User.id (Message.author message) =? User.id u)
      && match Message.embeds message with [] => false | _ :: _ => true end
  | None => false
  end.

(** The body of the scanning loop; the loop variables are
    [(message_count, mapping_count)]. *)
Definition scan_message (counts : Z * Z) (message : Message.t) : Coro (Z * Z) :=
  let '(message_count, mapping_count) := counts in
  let message_count := message_count + 1 in
  u ← gets client_user;
  if own_message_with_embeds u message then
    match Message.embeds message with
    | embed :: _ =>
        if truthy_opt_str (Embed.url embed) then
          let event_url := default "" (Embed.url embed) in
          modify (set_url_to_message_map <[event_url := Message.id message]>);;
          let mapping_count := mapping_count + 1 in
          log Debug "found_event_message"
            [("message_id", LInt (Message.id message)); ("event_url", LStr event_url)];;
          mret (message_count, mapping_count)
        else mret (message_count, mapping_count)
    | [] => mret (message_count, mapping_count)
    end
  else mret (message_count, mapping_count).

(** The [except] clauses of [rebuild_event_mapping]. *)
Definition rebuild_handler (e : Exn) : Coro unit :=
  if is_HTTPException e then
    log Error "failed_to_rebuild_mapping"
      [("error", LStr (str e)); ("status", LInt (exn_status e))]
  else
    log Error "unexpected_error_rebuilding_mapping" [("error", LStr (str e))].

Definition rebuild_event_mapping (limit : nat) : Coro unit :=
  ch ← gets channel;
  match ch with
  | None => log Error "channel_not_available_for_rebuild" []
  | Some ch =>
      log Info "rebuilding_event_mapping" [("limit", LInt (Z.of_nat limit))];;
      try_except
        (modify (set_event_message_map (fun _ => ∅));;
         '(message_count, mapping_count) ←
           async_for (CallHistory limit)
             (fun before => TextChannel.history ch before limit)
             (0, 0) scan_message;
         log Info "event_mapping_rebuilt"
           [("messages_scanned", LInt message_count);
            ("mappings_found", LInt mapping_count)])
        rebuild_handler
  end.

(** ** [DiscordClient.upsert_event] *)

(** The [except] clauses of [upsert_event]. *)
Definition upsert_handler (event : GoogleCalendarEvent.t) (e : Exn) : Coro (option Z) :=
  (if is_HTTPException e then
     log Error "discord_http_error"
       [("event_id", LStr (GoogleCalendarEvent.id event));
        ("error", LStr (str e));
        ("status", LInt (exn_status e))]
   else
     log Error "unexpected_error_upserting_event"
       [("event_id", LStr (GoogleCalendarEvent.id event));
        ("error", LStr (str e))]);;
  mret None.

(** The lookup by event id, then by url, with the backfill of the event-id
    map; the value bound to [existing_message_id] when the [if] that follows
    is reached. *)
Definition find_existing (event : GoogleCalendarEvent.t) : Coro (option Z) :=
  existing_message_id ←
    gets (fun c => event_message_map c !! GoogleCalendarEvent.id event);
  if negb (truthy_opt_int existing_message_id)
     && truthy_str (GoogleCalendarEvent.html_link event)
  then
    existing_message_id ←
      gets (fun c => _url_to_message_map c !! GoogleCalendarEvent.html_link event);
    match existing_message_id with
    | Some m =>
        if truthy_int m then
          modify (set_event_message_map <[GoogleCalendarEvent.id event := m]>);;
          log Debug "found_existing_message_by_url"
            [("event_id", LStr (GoogleCalendarEvent.id event));
             ("message_id", LInt m);
             ("event_url", LStr (GoogleCalendarEvent.html_link event))];;
          mret existing_message_id
        else mret existing_message_id
    | None => mret existing_message_id
    end
  else mret existing_message_id.

Definition upsert_event (event : GoogleCalendarEvent.t) : Coro (option Z) :=
  ch ← gets channel;
  match ch with
  | None => log Error "channel_not_available" [];; mret None
  | Some ch =>
      try_except
        (let embed_data := GoogleCalendarEvent.to_discord_embed event in
         let embed := Embed.from_dict embed_data in
         existing_message_id ← find_existing event;
         if truthy_opt_int existing_message_id then
           log Info "skipped_existing_event"
             [("event_id", LStr (GoogleCalendarEvent.id event));
              ("message_id", LInt (default 0 existing_message_id));
              ("event_summary", LStr (GoogleCalendarEvent.summary event))];;
           mret existing_message_id
         else
           message ← await (CallSend embed) (fun before => TextChannel.send ch before embed);
           modify (set_event_message_map
                     <[GoogleCalendarEvent.id event := Message.id message]>);;
           (if truthy_str (GoogleCalendarEvent.html_link event)
            then modify (set_url_to_message_map
                           <[GoogleCalendarEvent.html_link event := Message.id message]>)
            else mret tt);;
           log Info "created_event_message"
             [("event_id", LStr (GoogleCalendarEvent.id event));
              ("message_id", LInt (Message.id message));
              ("event_summary", LStr (GoogleCalendarEvent.summary event))];;
           mret (Some (Message.id message)))
        (upsert_handler event)
  end.

(** ** [DiscordClient.delete_event_message] *)

(** The [except] clauses of [delete_event_message]. *)
Definition delete_handler (event_id : string) (message_id : Z) (e : Exn) : Coro bool :=
  if is_NotFound e then
    log Warning "message_already_deleted"
      [("event_id", LStr event_id); ("message_id", LInt message_id)];;
    del_event_message event_id;;
    mret true
  else if is_HTTPException e then
    log Error "discord_http_error_deleting"
      [("event_id", LStr event_id); ("error", LStr (str e))];;
    mret false
  else
    log Error "unexpected_error_deleting_event"
      [("event_id", LStr event_id); ("error", LStr (str e))];;
    mret false.

Definition delete_event_message (event_id : string) : Coro bool :=
  ch ← gets channel;
  match ch with
  | None => log Error "channel_not_available" [];; mret false
  | Some ch =>
      message_id ← gets (fun c => event_message_map c !! event_id);
      match message_id with
      | Some message_id =>
          if truthy_int message_id then
            try_except
              (message ← await (CallFetchMessage message_id)
                           (fun before => TextChannel.fetch_message ch before message_id);
               await (CallDelete (Message.id message))
                 (fun before => match TextChannel.delete ch before message with
                                | Some e => inl e
                                | None => inr tt
                                end);;
               del_event_message event_id;;
               log Info "deleted_event_message"
                 [("event_id", LStr event_id); ("message_id", LInt message_id)];;
               mret true)
              (delete_handler event_id message_id)
          else
            log Warning "no_message_found_for_event" [("event_id", LStr event_id)];;
            mret false
      | None =>
          log Warning "no_message_found_for_event" [("event_id", LStr event_id)];;
          mret false
      end
  end.

(** ** [DiscordClient.sync_events] *)

(** The [stats] dict. *)
Record Stats := {
  total : Z;
  created : Z;
  skipped : Z;
  failed : Z
}.

(** The expression bound to [existing_message_id] in the loop of
    [sync_events], evaluated before [upsert_event] is called. *)
Definition prior_mapping (event : GoogleCalendarEvent.t) (c : DiscordClient) : option Z :=
  py_or (event_message_map c !! GoogleCalendarEvent.id event)
        (if truthy_str (GoogleCalendarEvent.html_link event)
         then _url_to_message_map c !! GoogleCalendarEvent.html_link event
         else None).

(** The body of the loop of [sync_events]. *)
Definition sync_event (stats : Stats) (event : GoogleCalendarEvent.t) : Coro Stats :=
  existing_message_id ← gets (prior_mapping event);
  message_id ← upsert_event event;
  if truthy_opt_int message_id then
    if truthy_opt_int existing_message_id then
      mret {| total := total stats; created := created stats;
              skipped := skipped stats + 1; failed := failed stats |}
    else
      mret {| total := total stats; created := created stats + 1;
              skipped := skipped stats; failed := failed stats |}
  else
    mret {| total := total stats; created := created stats;
            skipped := skipped stats; failed := failed stats + 1 |}.

Definition sync_events (events : list GoogleCalendarEvent.t) (rebuild_mapping : bool)
    : Coro Stats :=
  (if rebuild_mapping then rebuild_event_mapping 200 else mret tt);;
  let stats := {| total := Z.of_nat (length events);
                  created := 0; skipped := 0; failed := 0 |} in
  stats ← for_each events stats sync_event;
  log Info "sync_completed"
    [("total", LInt (total stats)); ("created", LInt (created stats));
     ("skipped", LInt (skipped stats)); ("failed", LInt (failed stats))];;
  mret stats.

(** [DiscordClient.__init__], with the user and channel that [on_ready] will
    see left unset. *)
Definition new_client : DiscordClient :=
  {| client_user := None;
     channel := None;
     event_message_map := ∅;
     _url_to_message_map := ∅;
     logger := [];
     calls := [] |}.

(** ** Observations used in the statements *)

(** The entry [(url, message id)] that the scanning loop stores for a
    message, if it stores one. *)
Definition recorded_link (u : option User.t) (message : Message.t) : option (string * Z) :=
  if own_message_with_embeds u message then
    match Message.embeds message with
    | embed :: _ =>
        if truthy_opt_str (Embed.url embed)
        then Some (default "" (Embed.url embed), Message.id message)
        else None
    | [] => None
    end
  else None.

(** The durable-link index after a scan of [messages] that started from
    [start]. *)
Definition scanned_links (u : option User.t) (messages : list Message.t)
    (start : gmap string Z) : gmap string Z :=
  foldl (fun acc message =>
           match recorded_link u message with
           | Some (k, v) => <[k := v]> acc
           | None => acc
           end) start messages.

(** The indices are filled only through a channel: as long as the client has
    none, both are empty. *)
Definition index_needs_channel (c : DiscordClient) : Prop :=
  channel c = None -> event_message_map c = ∅ /\ _url_to_message_map c = ∅.

(** The last record a client has logged. *)
Definition last_logged (c : DiscordClient) : option LogRecord := last (logger c).

(** ** Sample data

    The objects of the repository's tests ([tests/test_url_matching.py]): a
    bot account with id 999, two of its messages with embedded event links,
    a channel whose replies are fixed, and clients in the states the tests
    set up. *)

Definition bot : User.t := {| User.id := 999; User.name := "gcal-bot" |}.

Definition embed_with_url (u : string) : Embed.t :=
  {| Embed.title := None; Embed.url := Some u; Embed.color := None; Embed.fields := [] |}.

Definition mock_message_1 : Message.t :=
  {| Message.id := 1001; Message.author := bot;
     Message.embeds := [embed_with_url "https://www.google.com/calendar/event?eid=event1"] |}.

Definition mock_message_2 : Message.t :=
  {| Message.id := 1002; Message.author := bot;
     Message.embeds := [embed_with_url "https://www.google.com/calendar/event?eid=event2"] |}.

Definition mock_new_message : Message.t :=
  {| Message.id := 6000; Message.author := bot; Message.embeds := [] |}.

(** A channel with fixed replies: [history] yields [messages] and then raises
    [failure] if there is one, [send] answers [send_reply], and every fetch
    finds that the message is gone. *)
Definition mock_channel (messages : list Message.t) (failure : option Exn)
    (send_reply : Exn + Message.t) : TextChannel.t :=
  {| TextChannel.id := 12345;
     TextChannel.name := "calendar";
     TextChannel.history := fun _ _ => (messages, failure);
     TextChannel.send := fun _ _ => send_reply;
     TextChannel.fetch_message := fun _ _ => inl (NotFound "Unknown Message");
     TextChannel.delete := fun _ _ => None |}.

(** A client that is ready on [ch] with the given indices. *)
Definition ready_client (ch : TextChannel.t) (by_id by_url : gmap string Z) : DiscordClient :=
  {| client_user := Some bot;
     channel := Some ch;
     event_message_map := by_id;
     _url_to_message_map := by_url;
     logger := [];
     calls := [] |}.

Definition make_event (id summary : string) (description : option string)
    (html_link : string) (attendees : list string) : GoogleCalendarEvent.t :=
  {| GoogleCalendarEvent.id := id;
     GoogleCalendarEvent.summary := summary;
     GoogleCalendarEvent.description := description;
     GoogleCalendarEvent.location := None;
     GoogleCalendarEvent.html_link := html_link;
     GoogleCalendarEvent.start_time := None;
     GoogleCalendarEvent.end_time := None;
     GoogleCalendarEvent.is_all_day := false;
     GoogleCalendarEvent.attendees := attendees |}.

Definition test_event : GoogleCalendarEvent.t :=
  make_event "new_event_123" "Test Event" None
    "https://www.google.com/calendar/event?eid=test123" [].

Definition test_event_retitled : GoogleCalendarEvent.t :=
  make_event "new_event_123" "Test Event (moved)" (Some "Now in room 2")
    "https://www.google.com/calendar/event?eid=test123" [].

Definition brand_new_event : GoogleCalendarEvent.t :=
  make_event "brand_new_event" "Brand New Event" None
    "https://www.google.com/calendar/event?eid=brandnew" [].

(** A string of [n] times the character [a]. *)
Fixpoint letters (n : nat) : string :=
  match n with
  | O => ""
  | S n' => "a" ++ letters n'
  end.

Definition long_event : GoogleCalendarEvent.t :=
  make_event "long" "Long" (Some (letters 1030)) "" [].

Definition short_event : GoogleCalendarEvent.t :=
  make_event "short" "Short" (Some "Bring slides") "" [].

Definition crowded_event : GoogleCalendarEvent.t :=
  make_event "crowd" "All hands" None ""
    ["a01@x.org"; "a02@x.org"; "a03@x.org"; "a04@x.org"; "a05@x.org"; "a06@x.org";
     "a07@x.org"; "a08@x.org"; "a09@x.org"; "a10@x.org"; "a11@x.org"; "a12@x.org"].

Definition small_event : GoogleCalendarEvent.t :=
  make_event "small" "Stand-up" None "" ["a01@x.org"; "a02@x.org"].

(** A client whose durable-link index holds an entry from before, on a
    channel with an empty history. *)
Definition stale_client : DiscordClient :=
  ready_client (mock_channel [] None (inr mock_new_message))
    ∅ {["https://www.google.com/calendar/event?eid=old" := 5]}.

Definition quiet_channel : TextChannel.t :=
  mock_channel [] None (inr mock_new_message).

(** The state of [test_rebuild_event_mapping_with_existing_messages], with
    one older entry in the durable-link index. *)
Definition two_links_client : DiscordClient :=
  ready_client (mock_channel [mock_message_1; mock_message_2] None (inr mock_new_message))
    {["stale_event" := 4]}
    {["https://www.google.com/calendar/event?eid=old" := 5]}.

(** The state of [test_upsert_event_finds_by_url]. *)
Definition found_by_url_client : DiscordClient :=
  ready_client quiet_channel
    ∅ {["https://www.google.com/calendar/event?eid=test123" := 5000]}.

(** The state of [test_upsert_event_creates_new_when_url_not_found]. *)
Definition fresh_client : DiscordClient := ready_client quiet_channel ∅ ∅.

Definition service_unavailable : Exn := HTTPException 503 "Service Unavailable".

(** A client on a channel whose scan breaks after one message and whose
    [send] fails. *)
Definition failing_client : DiscordClient :=
  ready_client
    (mock_channel [mock_message_1] (Some service_unavailable) (inl service_unavailable))
    ∅ ∅.

(** A client that holds a message for [test_event] that Discord has lost. *)
Definition lost_message_client : DiscordClient :=
  ready_client quiet_channel {["new_event_123" := 5000]} ∅.

(** ** [DiscordClient._setup_event_handlers]: [on_ready] *)

(** What [self.client.get_channel] can find in the cache: a text channel or
    a channel of another kind (voice, category, thread, ...). *)
Inductive CachedChannel :=
| IsTextChannel (ch : TextChannel.t)
| IsOtherChannel (channel_id : Z).

Definition set_channel (ch : TextChannel.t) (c : DiscordClient) : DiscordClient :=
  {| client_user := client_user c;
     channel := Some ch;
     event_message_map := event_message_map c;
     _url_to_message_map := _url_to_message_map c;
     logger := logger c;
     calls := calls c |}.

(** [on_ready], for the configured [settings.discord_channel_id] and the
    reply of the cache lookup [self.client.get_channel], which is not an
    awaited call. *)
Definition on_ready (discord_channel_id : Z)
    (get_channel : Z -> Exn + option CachedChannel) : Coro unit :=
  u ← gets client_user;
  match u with
  | Some u =>
      log Info "discord_bot_ready"
        [("bot_user", LStr (User.name u)); ("bot_id", LInt (User.id u))]
  | None => mret tt
  end;;
  try_except
    (found ← (fun c => match get_channel discord_channel_id with
                       | inr found => (Return found, c)
                       | inl e => (Raise e, c)
                       end);
     match found with
     | Some (IsTextChannel ch) =>
         modify (set_channel ch);;
         log Info "connected_to_channel"
           [("channel_name", LStr (TextChannel.name ch));
            ("channel_id", LInt (TextChannel.id ch))]
     | _ => log Error "invalid_channel" [("channel_id", LInt discord_channel_id)]
     end)
    (fun e => log Error "failed_to_get_channel" [("error", LStr (str e))]).

(** The states a client goes through: [on_ready] and the four methods, on
    any arguments, and the Discord library setting [self.client.user]. *)
Inductive client_step : DiscordClient -> DiscordClient -> Prop :=
| step_on_ready discord_channel_id get_channel c :
    client_step c (on_ready discord_channel_id get_channel c).2
| step_rebuild limit c :
    client_step c (rebuild_event_mapping limit c).2
| step_upsert event c :
    client_step c (upsert_event event c).2
| step_delete event_id c :
    client_step c (delete_event_message event_id c).2
| step_sync events rebuild_mapping c :
    client_step c (sync_events events rebuild_mapping c).2
| step_login u c :
    client_step c {| client_user := u;
                     channel := channel c;
                     event_message_map := event_message_map c;
                     _url_to_message_map := _url_to_message_map c;
                     logger := logger c;
                     calls := calls c |}.

(** The states reachable from a new client. *)
Inductive reachable : DiscordClient -> Prop :=
| reachable_new : reachable new_client
| reachable_step c c' : reachable c -> client_step c c' -> reachable c'.

(** The number of [send] calls in a list of calls. *)
Definition is_send (k : Call) : bool :=
  match k with
  | CallSend _ => true
  | _ => false
  end.

Definition count_sends (l : list Call) : Z :=
  Z.of_nat (length (List.filter is_send l)).

(** ** [google_calendar.py]: building an event from the API record *)

(** [a or b] on two results of [dict.get] that are strings. *)
Definition py_or_str (a b : option string) : option string :=
  if truthy_opt_str a then a else b.

(** [sub in s] for a [sub] of one character. *)
Fixpoint contains_char (a : Ascii.ascii) (s : string) : bool :=
  match s with
  | EmptyString => false
  | String b s' => if Ascii.eqb a b then true else contains_char a s'
  end.

(** [s.replace(old, new)] for an [old] of one character. *)
Fixpoint replace_char (old : Ascii.ascii) (new : string) (s : string) : string :=
  match s with
  | EmptyString => EmptyString
  | String b s' =>
      if Ascii.eqb old b then new ++ replace_char old new s'
      else String b (replace_char old new s')
  end.

(** The record the Calendar API returns for an event, as [event_data]: a key
    is a field, [None] when the dict lacks the key; a key that is present
    holds a value of the type the annotations of [__init__] give it. *)
Module EventData.
(** The dict under ["start"] and under ["end"]. *)
Record time_dict := {
  dateTime : option string;
  date : option string
}.

(** One dict of the list under ["attendees"]. *)
Record attendee_dict := {
  email : option string
}.

Record t := {
  id : option string;
  summary : option string;
  description : option string;
  location : option string;
  htmlLink : option string;
  start : option time_dict;
  end_ : option time_dict;
  attendees : option (list attendee_dict)
}.

(** The [{}] that [event_data.get("start", {})] defaults to. *)
Definition no_time : time_dict := {| dateTime := None; date := None |}.
End EventData.

(** The non-empty addresses of a list of attendee dicts, one by one from the
    first: what the attendees of an event are to be. *)
Fixpoint nonempty_emails (l : list EventData.attendee_dict) : list string :=
  match l with
  | [] => []
  | attendee :: rest =>
      match EventData.email attendee with
      | Some address =>
          if truthy_str address then address :: nonempty_emails rest
          else nonempty_emails rest
      | None => nonempty_emails rest
      end
  end.

(** [GoogleCalendarEvent._parse_datetime], given [datetime.fromisoformat],
    whose [inl] is the text of the [ValueError] it raises.  The result comes
    with the warnings sent to the module's logger. *)
Definition _parse_datetime (fromisoformat : string -> string + datetime)
    (dt_string : option string) : option datetime * list LogRecord :=
  match dt_string with
  | None => (None, [])
  | Some s =>
      if truthy_str s then
        match (if contains_char "T"%char s
               then fromisoformat (replace_char "Z"%char "+00:00" s)
               else fromisoformat s) with
        | inr dt => (Some dt, [])
        | inl e =>
            (None, [ {| level := Warning;
                        event := "failed_to_parse_datetime";
                        kwargs := [("dt_string", LStr s); ("error", LStr e)] |} ])
        end
      else (None, [])
  end.

(** [GoogleCalendarEvent.__init__]: the event and the warnings logged while
    it was built. *)
Definition GoogleCalendarEvent__init__ (fromisoformat : string -> string + datetime)
    (event_data : EventData.t) : GoogleCalendarEvent.t * list LogRecord :=
  let start := default EventData.no_time (EventData.start event_data) in
  let '(start_time, start_warnings) :=
    _parse_datetime fromisoformat
      (py_or_str (EventData.dateTime start) (EventData.date start)) in
  let end_ := default EventData.no_time (EventData.end_ event_data) in
  let '(end_time, end_warnings) :=
    _parse_datetime fromisoformat
      (py_or_str (EventData.dateTime end_) (EventData.date end_)) in
  ({| GoogleCalendarEvent.id := default "" (EventData.id event_data);
      GoogleCalendarEvent.summary := default "No Title" (EventData.summary event_data);
      GoogleCalendarEvent.description := EventData.description event_data;
      GoogleCalendarEvent.location := EventData.location event_data;
      GoogleCalendarEvent.html_link := default "" (EventData.htmlLink event_data);
      GoogleCalendarEvent.start_time := start_time;
      GoogleCalendarEvent.end_time := end_time;
      GoogleCalendarEvent.is_all_day :=
        match EventData.date start with Some _ => true | None => false end;
      GoogleCalendarEvent.attendees :=
        List.map (fun attendee => default "" (EventData.email attendee))
          (List.filter (fun attendee => truthy_opt_str (EventData.email attendee))
             (default [] (EventData.attendees event_data))) |},
   (start_warnings ++ end_warnings)%list).

(** ** [google_calendar.py]: [GoogleCalendarClient.get_upcoming_events] *)

(** The exceptions on the calendar side and in the service. *)
Inductive PyExn :=
| HttpError (text : string)
| RuntimeError (text : string)
| KeyError (key : string)
| DiscordException (e : Exn)
| OtherPyException (text : string).

(** [str(e)]. *)
Definition str_py (e : PyExn) : string :=
  match e with
  | HttpError s | RuntimeError s | OtherPyException s => s
  | KeyError k => "'" ++ k ++ "'"
  | DiscordException e => str e
  end.

Inductive Ran (A : Type) :=
| Returned (a : A)
| Raised (e : PyExn).
Arguments Returned {A} a.
Arguments Raised {A} e.

(** The fields of [Settings] that the modelled code reads. *)
Record Settings := {
  google_calendar_id : string;
  discord_channel_id : Z;
  days_ahead : Z
}.

(** The keyword arguments of [service.events().list(...)]. *)
Module EventsRequest.
Record t := {
  calendarId : string;
  timeMin : string;
  timeMax : string;
  maxResults : Z;
  singleEvents : bool;
  orderBy : string
}.
End EventsRequest.

(** The Calendar service, seen through the one request the client makes:
    [execute()] raises or returns a dict, of which [items] is the value
    under ["items"], if the key is there. *)
Record CalendarService := {
  execute_events_list : EventsRequest.t -> PyExn + option (list EventData.t)
}.

(** [datetime.utcnow()], seen through what is done with it:
    [now.isoformat()] and [(now + timedelta(days=d)).isoformat()].  The
    second raises [OverflowError] when [d] or the resulting date is out of
    range: [inl] is the text of that error. *)
Record UtcNow := {
  isoformat : string;
  plus_days_isoformat : Z -> string + string
}.

(** The calendar client; [gcal_logger] is what has been logged (by the client
    and, while events are built, by the module) and [requests] the requests
    executed, both oldest first. *)
Record GoogleCalendarClient := {
  gcal_settings : Settings;
  service : option CalendarService;
  gcal_logger : list LogRecord;
  requests : list EventsRequest.t
}.

Definition gcal_emit (rs : list LogRecord) (g : GoogleCalendarClient)
    : GoogleCalendarClient :=
  {| gcal_settings := gcal_settings g;
     service := service g;
     gcal_logger := gcal_logger g ++ rs;
     requests := requests g |}.

Definition gcal_record_request (r : EventsRequest.t) (g : GoogleCalendarClient)
    : GoogleCalendarClient :=
  {| gcal_settings := gcal_settings g;
     service := service g;
     gcal_logger := gcal_logger g;
     requests := requests g ++ [r] |}.

(** The request that [get_upcoming_events] builds, for the [time_max] it has
    computed. *)
Definition upcoming_request (now : UtcNow) (g : GoogleCalendarClient)
    (time_max : string) (max_results : Z) : EventsRequest.t :=
  let time_min := isoformat now ++ "Z" in
  {| EventsRequest.calendarId := google_calendar_id (gcal_settings g);
     EventsRequest.timeMin := time_min;
     EventsRequest.timeMax := time_max;
     EventsRequest.maxResults := max_results;
     EventsRequest.singleEvents := true;
     EventsRequest.orderBy := "startTime" |}.

(** The [except] clauses of [get_upcoming_events]: log and raise again. *)
Definition fetch_handler (e : PyExn) (self : GoogleCalendarClient)
    : Ran (list GoogleCalendarEvent.t) * GoogleCalendarClient :=
  (Raised e,
   gcal_emit [ {| level := Error;
                  event := (match e with
                            | HttpError _ => "http_error_fetching_events"
                            | _ => "unexpected_error_fetching_events"
                            end);
                  kwargs := [("error", LStr (str_py e))] |} ] self).

Definition get_upcoming_events (now : UtcNow)
    (fromisoformat : string -> string + datetime)
    (days_ahead max_results : Z) (self : GoogleCalendarClient)
    : Ran (list GoogleCalendarEvent.t) * GoogleCalendarClient :=
  match service self with
  | None => (Raised (RuntimeError "Not authenticated. Call authenticate() first."), self)
  | Some svc =>
      match plus_days_isoformat now days_ahead with
      | inl overflow => fetch_handler (OtherPyException overflow) self
      | inr later =>
          let time_max := later ++ "Z" in
          let request := upcoming_request now self time_max max_results in
          let self :=
            gcal_emit [ {| level := Info; event := "fetching_events";
                           kwargs := [("calendar_id", LStr (EventsRequest.calendarId request));
                                      ("time_min", LStr (EventsRequest.timeMin request));
                                      ("time_max", LStr (EventsRequest.timeMax request))] |} ]
              self in
          let self := gcal_record_request request self in
          match execute_events_list svc request with
          | inr events_result =>
              let events := default [] events_result in
              let self :=
                gcal_emit [ {| level := Info; event := "fetched_events";
                               kwargs := [("event_count",
                                           LInt (Z.of_nat (length events)))] |} ]
                  self in
              let built := List.map (GoogleCalendarEvent__init__ fromisoformat) events in
              (Returned (List.map fst built),
               gcal_emit (List.concat (List.map snd built)) self)
          | inl e => fetch_handler e self
          end
      end
  end.

(** ** [main.py]: [CalendarSyncService.sync_once] *)

(** [stats[key]] on the dict that [sync_events] returns. *)
Definition stats_getitem (stats : Stats) (key : string) : PyExn + Z :=
  if String.eqb key "total" then inr (total stats)
  else if String.eqb key "created" then inr (created stats)
  else if String.eqb key "skipped" then inr (skipped stats)
  else if String.eqb key "failed" then inr (failed stats)
  else inl (KeyError key).

(** The service object; [service_logger] is what [self.logger] has emitted. *)
Record CalendarSyncService := {
  settings : Settings;
  service_logger : list LogRecord;
  gcal_client : option GoogleCalendarClient;
  discord_client : option DiscordClient;
  running : bool
}.

Definition service_emit (r : LogRecord) (s : CalendarSyncService) : CalendarSyncService :=
  {| settings := settings s;
     service_logger := service_logger s ++ [r];
     gcal_client := gcal_client s;
     discord_client := discord_client s;
     running := running s |}.

Definition set_gcal_client (g : GoogleCalendarClient) (s : CalendarSyncService)
    : CalendarSyncService :=
  {| settings := settings s;
     service_logger := service_logger s;
     gcal_client := Some g;
     discord_client := discord_client s;
     running := running s |}.

Definition set_discord_client (d : DiscordClient) (s : CalendarSyncService)
    : CalendarSyncService :=
  {| settings := settings s;
     service_logger := service_logger s;
     gcal_client := gcal_client s;
     discord_client := Some d;
     running := running s |}.

(** The [except Exception] clause of [sync_once]: log and raise again;
    [exc_info=True] is logged as 1. *)
Definition sync_once_handler (e : PyExn) (s : CalendarSyncService)
    : Ran unit * CalendarSyncService :=
  (Raised e,
   service_emit {| level := Error; event := "sync_failed";
                   kwargs := [("error", LStr (str_py e)); ("exc_info", LInt 1)] |} s).

(** The call of [self.logger.info("sync_completed", ...)]: its keyword
    arguments are evaluated from left to right. *)
Definition log_sync_completed (stats : Stats) (s : CalendarSyncService)
    : Ran unit * CalendarSyncService :=
  match stats_getitem stats "total" with
  | inl e => (Raised e, s)
  | inr total_events =>
      match stats_getitem stats "created" with
      | inl e => (Raised e, s)
      | inr created =>
          match stats_getitem stats "updated" with
          | inl e => (Raised e, s)
          | inr updated =>
              match stats_getitem stats "failed" with
              | inl e => (Raised e, s)
              | inr failed =>
                  (Returned tt,
                   service_emit {| level := Info; event := "sync_completed";
                                   kwargs := [("total_events", LInt total_events);
                                              ("created", LInt created);
                                              ("updated", LInt updated);
                                              ("failed", LInt failed)] |} s)
              end
          end
      end
  end.

Definition sync_once (now : UtcNow) (fromisoformat : string -> string + datetime)
    (self : CalendarSyncService) : Ran unit * CalendarSyncService :=
  match gcal_client self, discord_client self with
  | Some gcal, Some discord =>
      let self := service_emit {| level := Info; event := "starting_sync";
                                  kwargs := [] |} self in
      match get_upcoming_events now fromisoformat (days_ahead (settings self)) 100 gcal with
      | (Raised e, gcal) => sync_once_handler e (set_gcal_client gcal self)
      | (Returned events, gcal) =>
          let self := set_gcal_client gcal self in
          match events with
          | [] => (Returned tt,
                   service_emit {| level := Info; event := "no_events_to_sync";
                                   kwargs := [] |} self)
          | _ :: _ =>
              match sync_events events true discord with
              | (Raise e, discord) =>
                  sync_once_handler (DiscordException e) (set_discord_client discord self)
              | (Return stats, discord) =>
                  let self := set_discord_client discord self in
                  match log_sync_completed stats self with
                  | (Raised e, self) => sync_once_handler e self
                  | (Returned _, self) => (Returned tt, self)
                  end
              end
          end
      end
  | _, _ => (Raised (RuntimeError "Service not initialized"), self)
  end.

(** More sample data. *)

Definition posted_client : DiscordClient :=
  ready_client quiet_channel
    {["new_event_123" := 5000]}
    {["https://www.google.com/calendar/event?eid=test123" := 5000]}.

Definition twin_event : GoogleCalendarEvent.t :=
  make_event "brand_new_event_copy" "Brand New Event (copy)" None
    "https://www.google.com/calendar/event?eid=brandnew" [].

Definition event1 : GoogleCalendarEvent.t :=
  make_event "e1" "First" None "https://www.google.com/calendar/event?eid=event1" [].

Definition event2 : GoogleCalendarEvent.t :=
  make_event "e2" "Second" None "https://www.google.com/calendar/event?eid=event2" [].

Definition noon : datetime := {| strftime := fun fmt => fmt |}.

(** A parser that accepts what has no ["Z"] in it. *)
Definition strict_parser (s : string) : string + datetime :=
  if contains_char "Z"%char s then inl ("Invalid isoformat string: '" ++ s ++ "'") else inr noon.

(** A clock reading that can add up to a year. *)
Definition sample_now : UtcNow :=
  {| isoformat := "2025-01-01T10:00:00";
     plus_days_isoformat :=
       fun d => if (d <=? 365) then inr "2025-01-08T10:00:00"
                else inl "date value out of range" |}.

Definition linkless_event : GoogleCalendarEvent.t :=
  make_event "no_link" "No link" None "" [].

Definition sample_settings : Settings :=
  {| google_calendar_id := "primary"; discord_channel_id := 12345; days_ahead := 7 |}.

Definition raw_event : EventData.t :=
  {| EventData.id := Some "brand_new_event";
     EventData.summary := Some "Brand New Event";
     EventData.description := None;
     EventData.location := None;
     EventData.htmlLink := Some "https://www.google.com/calendar/event?eid=brandnew";
     EventData.start := Some {| EventData.dateTime := Some "2025-01-01T10:00:00Z";
                                EventData.date := None |};
     EventData.end_ := Some {| EventData.dateTime := Some "2025-01-01T11:00:00Z";
                               EventData.date := None |};
     EventData.attendees :=
       Some [ {| EventData.email := Some "ann@x.org" |};
              {| EventData.email := None |};
              {| EventData.email := Some "" |};
              {| EventData.email := Some "bob@x.org" |} ] |}.

Definition calendar_with (items : list EventData.t) : GoogleCalendarClient :=
  {| gcal_settings := sample_settings;
     service := Some {| execute_events_list := fun _ => inr (Some items) |};
     gcal_logger := [];
     requests := [] |}.

Definition sample_service (items : list EventData.t) : CalendarSyncService :=
  {| settings := sample_settings;
     service_logger := [];
     gcal_client := Some (calendar_with items);
     discord_client := Some fresh_client;
     running := false |}.

(** * Properties *)

Arguments GoogleCalendarEvent.to_discord_embed : simpl never.

Ltac run :=
  unfold mbind, coro_bind, mret, coro_ret, gets, modify, log, try_except,
    await, raise; cbn.

(** Projections of an updated client. *)
Ltac fields :=
  cbn [client_user channel event_message_map _url_to_message_map logger calls
       emit record_call set_event_message_map set_url_to_message_map].


(** ** Strings and slices *)

Lemma length_append (s1 s2 : string) :
  String.length (s1 ++ s2) = (String.length s1 + String.length s2)%nat.
Proof.
  induction s1 as [|c s1 IH]; [reflexivity|].
  change (String c s1 ++ s2) with (String c (s1 ++ s2)).
  cbn [String.length]. now rewrite IH.
Qed.

Lemma length_slice_to (n : nat) (s : string) :
  (n <= String.length s)%nat -> String.length (slice_to n s) = n.
Proof.
  revert s. induction n as [|n IH]; intros [|c s] Hn; cbn in *; try lia.
  now rewrite IH by lia.
Qed.

(** [s[:n]] is the prefix of [s] of that length. *)
Lemma slice_to_substring (n : nat) (s : string) :
  slice_to n s = substring 0 n s.
Proof.
  revert s. induction n as [|n IH]; intros [|c s]; cbn; try reflexivity.
  now rewrite IH.
Qed.

Lemma slice_to_prefix (n : nat) (s : string) :
  (n <= String.length s)%nat -> String.prefix (slice_to n s) s = true.
Proof.
  intros Hn. apply prefix_correct.
  now rewrite length_slice_to, slice_to_substring.
Qed.

Lemma truthy_str_nonempty (s : string) : truthy_str s = true <-> s <> "".
Proof. destruct s; cbn; split; intros; congruence. Qed.

Lemma truthy_int_nonzero (n : Z) : truthy_int n = true <-> n <> 0.
Proof. unfold truthy_int. destruct (Z.eqb_spec n 0); cbn; split; intros; congruence. Qed.

Lemma truthy_int_false (n : Z) : truthy_int n = false <-> n = 0.
Proof. unfold truthy_int. destruct (Z.eqb_spec n 0); cbn; split; intros; congruence. Qed.

(** ** Rendering: the fields of [to_discord_embed] *)

Section Rendering.
Import GoogleCalendarEvent.

Lemma field_value_description (self : t) :
  field_value "📝 Description" (to_discord_embed self)
  = EmbedField.value <$> head (description_fields self).
Proof.
  unfold field_value, to_discord_embed, time_fields, location_fields,
    description_fields, attendees_fields. cbn [EmbedDict.fields].
  destruct (start_time self) as [st|]; destruct (location self) as [loc|];
    try destruct (truthy_str loc);
    destruct (description self) as [d|]; try destruct (truthy_str d);
    destruct (attendees self); reflexivity.
Qed.

Lemma field_value_attendees (self : t) :
  field_value "👥 Attendees" (to_discord_embed self)
  = EmbedField.value <$> head (attendees_fields self).
Proof.
  unfold field_value, to_discord_embed, time_fields, location_fields,
    description_fields, attendees_fields. cbn [EmbedDict.fields].
  destruct (start_time self) as [st|]; destruct (location self) as [loc|];
    try destruct (truthy_str loc);
    destruct (description self) as [d|]; try destruct (truthy_str d);
    destruct (attendees self); reflexivity.
Qed.

(** C8.  Truncation law: a description longer than 1024 characters is
    rendered as its first 1021 characters followed by the three characters
    of ["..."], 1024 characters in all; a description of at most 1024
    characters is rendered as it is: the description field can have no other
    value, and it has this value as soon as the description is not empty
    (for an empty description, as for a missing one, there is no field). *)
Theorem description_truncation_law (self : t) (d : string) :
  description self = Some d ->
  ((1024 < String.length d)%nat ->
     field_value "📝 Description" (to_discord_embed self)
       = Some (slice_to 1021 d ++ "...")
     /\ String.length (slice_to 1021 d ++ "...") = 1024%nat
     /\ String.length (slice_to 1021 d) = 1021%nat
     /\ String.prefix (slice_to 1021 d) d = true)
  /\ ((String.length d <= 1024)%nat ->
        (forall v, field_value "📝 Description" (to_discord_embed self) = Some v -> v = d)
        /\ (d <> "" -> field_value "📝 Description" (to_discord_embed self) = Some d)).
Proof.
  intros Hd. rewrite field_value_description.
  unfold description_fields, truncate_description. rewrite Hd.
  split.
  - intros Hlen.
    assert (Ht : truthy_str d = true) by (destruct d; [cbn in Hlen; lia | reflexivity]).
    rewrite Ht. apply Nat.ltb_lt in Hlen as Hb.
    cbn [head fmap option_fmap option_map EmbedField.value].
    rewrite Hb. split; [reflexivity|].
    rewrite length_append, length_slice_to by lia.
    split; [reflexivity|]. split; [reflexivity|].
    apply slice_to_prefix. lia.
  - intros Hlen. apply Nat.leb_le in Hlen. rewrite Nat.ltb_antisym, Hlen.
    cbn [negb]. split.
    + intros v. destruct (truthy_str d); cbn; congruence.
    + intros Hne. apply truthy_str_nonempty in Hne. now rewrite Hne.
Qed.

(** C9.  Attendee cap law: with [k] attendees, [k > 0], the attendee field
    lists the first ten addresses joined by [", "], followed by
    [" (+{k-10} more)"] exactly when [k > 10]. *)
Theorem attendee_cap_law (self : t) :
  attendees self <> [] ->
  let k := length (attendees self) in
  let listed := join ", " (firstn 10 (attendees self)) in
  ((10 < k)%nat ->
     field_value "👥 Attendees" (to_discord_embed self)
       = Some (listed ++ " (+" ++ format_nat (k - 10) ++ " more)"))
  /\ ((k <= 10)%nat ->
        field_value "👥 Attendees" (to_discord_embed self) = Some listed).
Proof.
  intros Hne k listed. rewrite field_value_attendees.
  unfold attendees_fields. destruct (attendees self) as [|a l] eqn:Hl; [congruence|].
  cbn [head fmap option_fmap option_map EmbedField.value].
  unfold attendees_str. fold k. fold listed. split; intros Hk.
  - apply Nat.ltb_lt in Hk. now rewrite Hk.
  - apply Nat.leb_le in Hk. now rewrite Nat.ltb_antisym, Hk.
Qed.

End Rendering.

(** ** Running the coroutines *)



(** A message of the bot whose first embed has a non-empty url is recorded
    under that url. *)
Lemma recorded_link_own (u : User.t) (message : Message.t)
    (embed : Embed.t) (rest : list Embed.t) (k : string) :
  User.id (Message.author message) = User.id u ->
  Message.embeds message = embed :: rest ->
  Embed.url embed = Some k ->
  k <> "" ->
  recorded_link (Some u) message = Some (k, Message.id message).
Proof.
  intros Ha He Hu Hk. unfold recorded_link, own_message_with_embeds.
  rewrite Ha, Z.eqb_refl, He, Hu. cbn.
  apply truthy_str_nonempty in Hk. now rewrite Hk.
Qed.

(** Nothing is recorded for a message of another author, without embeds, or
    whose first embed has no url. *)
Lemma recorded_link_none (u : option User.t) (message : Message.t) :
  u = None
  \/ (exists u', u = Some u' /\ User.id (Message.author message) <> User.id u')
  \/ Message.embeds message = []
  \/ (exists embed rest, Message.embeds message = embed :: rest
                         /\ (Embed.url embed = None \/ Embed.url embed = Some "")) ->
  recorded_link u message = None.
Proof.
  unfold recorded_link, own_message_with_embeds.
  intros [-> | [(u' & -> & Hne) | [He | (embed & rest & He & Hu)]]].
  - reflexivity.
  - apply Z.eqb_neq in Hne. now rewrite Hne.
  - rewrite He. now destruct u; rewrite ?andb_false_r.
  - rewrite He. destruct u as [u'|]; [|reflexivity].
    destruct (User.id (Message.author message) =? User.id u'); [|reflexivity].
    cbn. now destruct Hu as [-> | ->].
Qed.

Lemma scanned_links_app (u : option User.t) (l1 l2 : list Message.t) (start : gmap string Z) :
  scanned_links u (l1 ++ l2) start = scanned_links u l2 (scanned_links u l1 start).
Proof. unfold scanned_links. apply foldl_app. Qed.

(** A url that no scanned message records keeps the entry it had. *)
Lemma scanned_links_frame (u : option User.t) (messages : list Message.t)
    (start : gmap string Z) (k : string) :
  (forall message v, In message messages -> recorded_link u message <> Some (k, v)) ->
  scanned_links u messages start !! k = start !! k.
Proof.
  revert start. induction messages as [|m l IH]; intros start Hno; [reflexivity|].
  cbn. unfold scanned_links in IH. rewrite IH.
  - destruct (recorded_link u m) as [[k' v]|] eqn:Hm; [|reflexivity].
    apply lookup_insert_ne. intros ->. apply (Hno m v); [now left | assumption].
  - intros m' v Hin. apply Hno. now right.
Qed.

(** The last scanned message that records a url decides its entry. *)
Lemma scanned_links_last (u : option User.t) (pre post : list Message.t)
    (message : Message.t) (start : gmap string Z) (k : string) (v : Z) :
  recorded_link u message = Some (k, v) ->
  (forall message' v', In message' post -> recorded_link u message' <> Some (k, v')) ->
  scanned_links u (pre ++ message :: post) start !! k = Some v.
Proof.
  intros Hm Hpost. rewrite scanned_links_app.
  change (message :: post) with ([message] ++ post)%list. rewrite scanned_links_app.
  rewrite scanned_links_frame by assumption.
  cbn. rewrite Hm. apply lookup_insert_eq.
Qed.

(** No scan removes a key of the durable-link index. *)
Lemma scanned_links_dom (u : option User.t) (messages : list Message.t)
    (start : gmap string Z) (k : string) :
  is_Some (start !! k) -> is_Some (scanned_links u messages start !! k).
Proof.
  revert start. induction messages as [|m l IH]; intros start Hk; [assumption|].
  cbn. apply IH. destruct (recorded_link u m) as [[k' v]|]; [|assumption].
  destruct (decide (k' = k)) as [->|Hne].
  - rewrite lookup_insert_eq. eauto.
  - now rewrite lookup_insert_ne.
Qed.

(** One turn of the scanning loop: it never raises, stores the recorded link
    and touches nothing else but the log. *)
Lemma scan_message_run (counts : Z * Z) (message : Message.t) (c : DiscordClient) :
  exists counts' c',
    scan_message counts message c = (Return counts', c')
    /\ client_user c' = client_user c
    /\ channel c' = channel c
    /\ event_message_map c' = event_message_map c
    /\ _url_to_message_map c'
       = match recorded_link (client_user c) message with
         | Some (k, v) => <[k := v]> (_url_to_message_map c)
         | None => _url_to_message_map c
         end
    /\ calls c' = calls c.
Proof.
  destruct counts as [mc pc]. unfold scan_message, recorded_link. run.
  destruct (own_message_with_embeds (client_user c) message).
  - destruct (Message.embeds message) as [|embed rest].
    + now eexists _, _.
    + destruct (truthy_opt_str (Embed.url embed)); now eexists _, _.
  - now eexists _, _.
Qed.

Lemma scan_loop_run (messages : list Message.t) (counts : Z * Z) (c : DiscordClient) :
  exists counts' c',
    for_each messages counts scan_message c = (Return counts', c')
    /\ client_user c' = client_user c
    /\ channel c' = channel c
    /\ event_message_map c' = event_message_map c
    /\ _url_to_message_map c'
       = scanned_links (client_user c) messages (_url_to_message_map c)
    /\ calls c' = calls c.
Proof.
  revert counts c. induction messages as [|m l IH]; intros counts c.
  - now eexists _, _.
  - destruct (scan_message_run counts m c) as (counts1 & c1 & Hrun & Hu & Hch & Hev & Hurl & Hcalls).
    destruct (IH counts1 c1) as (counts2 & c2 & Hrun2 & Hu2 & Hch2 & Hev2 & Hurl2 & Hcalls2).
    exists counts2, c2. cbn [for_each]. unfold mbind, coro_bind at 1. rewrite Hrun, Hrun2.
    repeat split; try congruence.
    rewrite Hurl2, Hu, Hurl. reflexivity.
Qed.


Lemma last_logged_emit (r : LogRecord) (c : DiscordClient) :
  last_logged (emit r c) = Some r.
Proof. unfold last_logged. cbn. apply last_snoc. Qed.

(** [rebuild_event_mapping] with the channel available: the result, for any
    reply of [history]. *)
Lemma rebuild_event_mapping_run (limit : nat) (c : DiscordClient) (ch : TextChannel.t)
    (messages : list Message.t) (failure : option Exn) :
  channel c = Some ch ->
  TextChannel.history ch (calls c) limit = (messages, failure) ->
  exists c',
    rebuild_event_mapping limit c = (Return tt, c')
    /\ client_user c' = client_user c
    /\ channel c' = channel c
    /\ event_message_map c' = ∅
    /\ _url_to_message_map c'
       = scanned_links (client_user c) messages (_url_to_message_map c)
    /\ calls c' = (calls c ++ [CallHistory limit])%list
    /\ match failure with
       | Some e =>
           exists kw, last_logged c' = Some {| level := Error;
                                               event := (if is_HTTPException e
                                                         then "failed_to_rebuild_mapping"
                                                         else "unexpected_error_rebuilding_mapping");
                                               kwargs := ("error", LStr (str e)) :: kw |}
       | None => exists kw, last_logged c' = Some {| level := Info;
                                                     event := "event_mapping_rebuilt";
                                                     kwargs := kw |}
       end.
Proof.
  intros Hch Hhist. unfold rebuild_event_mapping, async_for. run.
  rewrite Hch. cbn. rewrite Hhist.
  match goal with
  | |- context [for_each messages ?a scan_message ?s] =>
      destruct (scan_loop_run messages a s)
        as ([mc pc] & c1 & Hrun & Hu & Hc & Hev & Hurl & Hcalls)
  end.
  unfold mbind, coro_bind, mret, coro_ret in Hrun |- *. rewrite Hrun.
  cbn in Hu, Hc, Hev, Hurl, Hcalls.
  destruct failure as [e|]; cbn.
  - unfold rebuild_handler. destruct (is_HTTPException e); run.
    all: eexists; split; [reflexivity|]; cbn; repeat split; try congruence.
    all: eexists; apply (last_logged_emit _ c1).
  - eexists; split; [reflexivity|]; cbn; repeat split; try congruence.
    eexists; apply (last_logged_emit _ c1).
Qed.

(** Without a channel, [rebuild_event_mapping] logs and returns. *)
Lemma rebuild_event_mapping_no_channel (limit : nat) (c : DiscordClient) :
  channel c = None ->
  rebuild_event_mapping limit c
  = (Return tt, emit {| level := Error;
                        event := "channel_not_available_for_rebuild";
                        kwargs := [] |} c).
Proof. intros Hch. unfold rebuild_event_mapping. run. now rewrite Hch. Qed.

(** [rebuild_event_mapping] returns: no exception leaves it. *)
Lemma rebuild_event_mapping_returns (limit : nat) (c : DiscordClient) :
  exists c', rebuild_event_mapping limit c = (Return tt, c')
             /\ channel c' = channel c
             /\ calls c' = match channel c with
                          | Some _ => (calls c ++ [CallHistory limit])%list
                          | None => calls c
                          end.
Proof.
  destruct (channel c) as [ch|] eqn:Hch.
  - destruct (TextChannel.history ch (calls c) limit) as [messages failure] eqn:Hh.
    destruct (rebuild_event_mapping_run limit c ch messages failure Hch Hh)
      as (c' & Hrun & _ & Hc & _ & _ & Hcalls & _).
    exists c'. repeat split; congruence.
  - rewrite rebuild_event_mapping_no_channel by assumption. now eexists.
Qed.

(** ** [upsert_event]: the three ways through it *)

Lemma py_or_truthy (a b : option Z) (m : Z) :
  py_or a b = Some m -> m <> 0 ->
  (a = Some m) \/ (truthy_opt_int a = false /\ b = Some m).
Proof.
  unfold py_or. destruct (truthy_opt_int a) eqn:Ha; intros H _; [now left | now right].
Qed.

(** A truthy prior mapping is what the lookup of [upsert_event] finds; the
    event-id map then holds it under the event's id. *)
Lemma find_existing_hit (event : GoogleCalendarEvent.t) (c : DiscordClient) (m : Z) :
  prior_mapping event c = Some m -> m <> 0 ->
  exists c',
    find_existing event c = (Return (Some m), c')
    /\ client_user c' = client_user c
    /\ channel c' = channel c
    /\ event_message_map c' = <[GoogleCalendarEvent.id event := m]> (event_message_map c)
    /\ _url_to_message_map c' = _url_to_message_map c
    /\ calls c' = calls c.
Proof.
  intros Hprior Hm. apply truthy_int_nonzero in Hm as Ht.
  unfold prior_mapping in Hprior.
  destruct (py_or_truthy _ _ _ Hprior Hm) as [Hid | [Hid Hurl]].
  - unfold find_existing. run. rewrite Hid. cbn. rewrite Ht. cbn.
    eexists; repeat split. cbn. symmetry. now apply insert_id.
  - unfold find_existing. run. rewrite Hid. cbn.
    destruct (truthy_str (GoogleCalendarEvent.html_link event)); [|discriminate].
    cbn. rewrite Hurl, Ht. now eexists.
Qed.

(** Without a truthy prior mapping the lookup finds nothing and changes
    nothing. *)
Lemma find_existing_miss (event : GoogleCalendarEvent.t) (c : DiscordClient) :
  truthy_opt_int (prior_mapping event c) = false ->
  exists r, find_existing event c = (Return r, c) /\ truthy_opt_int r = false.
Proof.
  unfold prior_mapping, py_or, find_existing. run. intros Hprior.
  destruct (truthy_opt_int (event_message_map c !! GoogleCalendarEvent.id event)) eqn:Hid;
    [congruence|]. cbn.
  destruct (truthy_str (GoogleCalendarEvent.html_link event)).
  - destruct (_url_to_message_map c !! GoogleCalendarEvent.html_link event) as [m|]; cbn in *.
    + rewrite Hprior. now eexists.
    + now eexists.
  - now eexists.
Qed.

(** Skip: the event is already mapped. *)
Lemma upsert_event_skip (event : GoogleCalendarEvent.t) (c : DiscordClient)
    (ch : TextChannel.t) (m : Z) :
  channel c = Some ch ->
  prior_mapping event c = Some m -> m <> 0 ->
  exists c',
    upsert_event event c = (Return (Some m), c')
    /\ client_user c' = client_user c
    /\ channel c' = channel c
    /\ event_message_map c' = <[GoogleCalendarEvent.id event := m]> (event_message_map c)
    /\ _url_to_message_map c' = _url_to_message_map c
    /\ calls c' = calls c.
Proof.
  intros Hch Hprior Hm.
  destruct (find_existing_hit event c m Hprior Hm) as (c1 & Hrun & Hu & Hc & Hev & Hurl & Hcalls).
  apply truthy_int_nonzero in Hm as Ht.
  unfold upsert_event. run. rewrite Hch. cbn.
  unfold mbind, coro_bind, mret, coro_ret in Hrun |- *. rewrite Hrun. cbn. rewrite Ht.
  eexists; split; [reflexivity|]. cbn. repeat split; congruence.
Qed.

(** Create: no prior mapping and [send] returns a message. *)
Lemma upsert_event_create (event : GoogleCalendarEvent.t) (c : DiscordClient)
    (ch : TextChannel.t) (message : Message.t) :
  let embed := Embed.from_dict (GoogleCalendarEvent.to_discord_embed event) in
  channel c = Some ch ->
  truthy_opt_int (prior_mapping event c) = false ->
  TextChannel.send ch (calls c) embed = inr message ->
  exists c',
    upsert_event event c = (Return (Some (Message.id message)), c')
    /\ client_user c' = client_user c
    /\ channel c' = channel c
    /\ event_message_map c'
       = <[GoogleCalendarEvent.id event := Message.id message]> (event_message_map c)
    /\ _url_to_message_map c'
       = (if truthy_str (GoogleCalendarEvent.html_link event)
          then <[GoogleCalendarEvent.html_link event := Message.id message]>
                 (_url_to_message_map c)
          else _url_to_message_map c)
    /\ calls c' = (calls c ++ [CallSend embed])%list.
Proof.
  intros embed Hch Hprior Hsend.
  destruct (find_existing_miss event c Hprior) as (r & Hrun & Hr).
  unfold upsert_event. run. rewrite Hch. cbn.
  unfold mbind, coro_bind, mret, coro_ret in Hrun |- *. rewrite Hrun, Hr.
  fold embed. rewrite Hsend.
  destruct (truthy_str (GoogleCalendarEvent.html_link event));
    eexists; split; try reflexivity; cbn; repeat split; congruence.
Qed.

(** Failure: no prior mapping and [send] raises.  The exception is caught,
    logged with the event's id and [str(e)], and [None] is returned. *)
Lemma upsert_event_send_raises (event : GoogleCalendarEvent.t) (c : DiscordClient)
    (ch : TextChannel.t) (e : Exn) :
  let embed := Embed.from_dict (GoogleCalendarEvent.to_discord_embed event) in
  channel c = Some ch ->
  truthy_opt_int (prior_mapping event c) = false ->
  TextChannel.send ch (calls c) embed = inl e ->
  exists c' kw,
    upsert_event event c = (Return None, c')
    /\ client_user c' = client_user c
    /\ channel c' = channel c
    /\ event_message_map c' = event_message_map c
    /\ _url_to_message_map c' = _url_to_message_map c
    /\ calls c' = (calls c ++ [CallSend embed])%list
    /\ last_logged c'
       = Some {| level := Error;
                 event := (if is_HTTPException e then "discord_http_error"
                           else "unexpected_error_upserting_event");
                 kwargs := ("event_id", LStr (GoogleCalendarEvent.id event))
                           :: ("error", LStr (str e)) :: kw |}.
Proof.
  intros embed Hch Hprior Hsend.
  destruct (find_existing_miss event c Hprior) as (r & Hrun & Hr).
  unfold upsert_event. run. rewrite Hch. cbn.
  unfold mbind, coro_bind, mret, coro_ret in Hrun |- *. rewrite Hrun, Hr.
  fold embed. rewrite Hsend. unfold upsert_handler.
  destruct (is_HTTPException e); run.
  all: eexists _, _; split; [reflexivity|]; cbn; repeat split; try congruence.
  all: apply (last_logged_emit _ (record_call (CallSend embed) c)).
Qed.

(** Without a channel, [upsert_event] logs and returns [None]. *)
Lemma upsert_event_no_channel (event : GoogleCalendarEvent.t) (c : DiscordClient) :
  channel c = None ->
  upsert_event event c
  = (Return None, emit {| level := Error; event := "channel_not_available";
                          kwargs := [] |} c).
Proof. intros Hch. unfold upsert_event. run. now rewrite Hch. Qed.

(** A prior mapping is either truthy, with its value, or not. *)
Lemma prior_mapping_cases (event : GoogleCalendarEvent.t) (c : DiscordClient) :
  (exists m, prior_mapping event c = Some m /\ m <> 0)
  \/ truthy_opt_int (prior_mapping event c) = false.
Proof.
  destruct (prior_mapping event c) as [m|]; [|now right].
  destruct (Z.eq_dec m 0) as [->|Hm]; [now right | left; eauto].
Qed.

(** [upsert_event] returns: no exception leaves it, and the channel stays. *)
Lemma upsert_event_returns (event : GoogleCalendarEvent.t) (c : DiscordClient) :
  exists r c', upsert_event event c = (Return r, c') /\ channel c' = channel c.
Proof.
  destruct (channel c) as [ch|] eqn:Hch.
  - destruct (prior_mapping_cases event c) as [(m & Hp & Hm) | Hp].
    + destruct (upsert_event_skip event c ch m Hch Hp Hm) as (c' & -> & _ & Hc & _).
      eexists _, _; split; [reflexivity | congruence].
    + destruct (TextChannel.send ch (calls c)
                  (Embed.from_dict (GoogleCalendarEvent.to_discord_embed event)))
        as [e|message] eqn:Hsend.
      * destruct (upsert_event_send_raises event c ch e Hch Hp Hsend)
          as (c' & kw & -> & _ & Hc & _).
        eexists _, _; split; [reflexivity | congruence].
      * destruct (upsert_event_create event c ch message Hch Hp Hsend)
          as (c' & -> & _ & Hc & _).
        eexists _, _; split; [reflexivity | congruence].
  - rewrite upsert_event_no_channel by assumption.
    eexists _, _; split; [reflexivity|]. cbn. congruence.
Qed.

(** ** [sync_events]: the loop *)

(** One turn of the loop, given what [upsert_event] did. *)
Lemma sync_event_run (stats : Stats) (event : GoogleCalendarEvent.t)
    (c c' : DiscordClient) (r : option Z) :
  upsert_event event c = (Return r, c') ->
  sync_event stats event c
  = (Return (if truthy_opt_int r then
               if truthy_opt_int (prior_mapping event c) then
                 {| total := total stats; created := created stats;
                    skipped := skipped stats + 1; failed := failed stats |}
               else
                 {| total := total stats; created := created stats + 1;
                    skipped := skipped stats; failed := failed stats |}
             else
               {| total := total stats; created := created stats;
                  skipped := skipped stats; failed := failed stats + 1 |}), c').
Proof.
  intros Hrun. unfold sync_event.
  unfold mbind, coro_bind, mret, coro_ret, gets. rewrite Hrun.
  destruct (truthy_opt_int r); [destruct (truthy_opt_int (prior_mapping event c))|];
    reflexivity.
Qed.

(** The loop returns, and every event lands in exactly one counter. *)
Lemma sync_loop_returns (events : list GoogleCalendarEvent.t) (stats : Stats)
    (c : DiscordClient) :
  exists stats' c',
    for_each events stats sync_event c = (Return stats', c')
    /\ channel c' = channel c
    /\ total stats' = total stats
    /\ created stats <= created stats'
    /\ skipped stats <= skipped stats'
    /\ failed stats <= failed stats'
    /\ created stats' + skipped stats' + failed stats'
       = created stats + skipped stats + failed stats + Z.of_nat (length events).
Proof.
  revert stats c. induction events as [|event l IH]; intros stats c.
  - eexists _, _; split; [reflexivity|]. cbn. repeat split; lia.
  - destruct (upsert_event_returns event c) as (r & c1 & Hrun & Hc1).
    pose proof (sync_event_run stats event c c1 r Hrun) as Hstep.
    cbn [for_each]. unfold mbind, coro_bind at 1. rewrite Hstep.
    match goal with
    | |- context [for_each l ?s sync_event c1] =>
        destruct (IH s c1) as (stats2 & c2 & Hloop & Hc2 & Ht & Hcr & Hsk & Hfa & Hsum)
    end.
    exists stats2, c2. split; [exact Hloop|].
    destruct (truthy_opt_int r); [destruct (truthy_opt_int (prior_mapping event c))|];
      cbn [total created skipped failed] in *;
      (split; [congruence|]); cbn [length]; repeat split; lia.
Qed.

(** [sync_events] returns its counts: no exception leaves it. *)
Lemma sync_events_returns (events : list GoogleCalendarEvent.t) (rebuild_mapping : bool)
    (c : DiscordClient) :
  exists stats c',
    sync_events events rebuild_mapping c = (Return stats, c')
    /\ total stats = Z.of_nat (length events)
    /\ 0 <= created stats /\ 0 <= skipped stats /\ 0 <= failed stats
    /\ created stats + skipped stats + failed stats = total stats.
Proof.
  unfold sync_events.
  assert (Hfirst : exists c0,
             (if rebuild_mapping then rebuild_event_mapping 200 else mret tt) c
             = (Return tt, c0)).
  { destruct rebuild_mapping.
    - destruct (rebuild_event_mapping_returns 200 c) as (c0 & H0 & _). eauto.
    - now eexists. }
  destruct Hfirst as (c0 & H0).
  unfold mbind, coro_bind at 1. rewrite H0.
  match goal with
  | |- context [for_each events ?s sync_event] =>
      destruct (sync_loop_returns events s c0)
        as (stats' & c' & Hloop & _ & Ht & Hcr & Hsk & Hfa & Hsum)
  end.
  unfold mbind, coro_bind at 1. rewrite Hloop. run.
  cbn [total created skipped failed] in *.
  eexists _, _; split; [reflexivity|]. repeat split; lia.
Qed.

(** ** [delete_event_message]: the paths that do not delete *)

(** An event id without a (truthy) entry in the event-id map: nothing is
    asked of Discord, and the call returns [False]. *)
Lemma delete_event_message_unmapped (event_id : string) (c : DiscordClient)
    (ch : TextChannel.t) :
  channel c = Some ch ->
  truthy_opt_int (event_message_map c !! event_id) = false ->
  exists c',
    delete_event_message event_id c = (Return false, c')
    /\ event_message_map c' = event_message_map c
    /\ calls c' = calls c.
Proof.
  intros Hch Hmiss. unfold delete_event_message. run. rewrite Hch. cbn.
  destruct (event_message_map c !! event_id) as [m|]; cbn in *.
  - rewrite Hmiss. now eexists.
  - now eexists.
Qed.

(** After a call of [upsert_event] that returned a message id, the event-id
    map holds that id for the event. *)
Lemma upsert_event_records (event : GoogleCalendarEvent.t) (c c1 : DiscordClient)
    (ch : TextChannel.t) (m : Z) :
  channel c = Some ch ->
  upsert_event event c = (Return (Some m), c1) ->
  channel c1 = Some ch /\ event_message_map c1 !! GoogleCalendarEvent.id event = Some m.
Proof.
  intros Hch Hrun.
  destruct (prior_mapping_cases event c) as [(m' & Hp & Hm') | Hp].
  - destruct (upsert_event_skip event c ch m' Hch Hp Hm') as (c' & Hrun' & _ & Hc & Hev & _).
    rewrite Hrun in Hrun'. injection Hrun' as -> ->.
    split; [congruence|]. rewrite Hev. apply lookup_insert_eq.
  - destruct (TextChannel.send ch (calls c)
                (Embed.from_dict (GoogleCalendarEvent.to_discord_embed event)))
      as [e|message] eqn:Hsend.
    + destruct (upsert_event_send_raises event c ch e Hch Hp Hsend) as (c' & kw & Hrun' & _).
      rewrite Hrun in Hrun'. discriminate.
    + destruct (upsert_event_create event c ch message Hch Hp Hsend)
        as (c' & Hrun' & _ & Hc & Hev & _).
      rewrite Hrun in Hrun'. injection Hrun' as -> ->.
      split; [congruence|]. rewrite Hev. apply lookup_insert_eq.
Qed.

(** [delete_event_message] returns: the [del] of its [NotFound] handler finds
    the key, which the [try] block has not removed when it raises. *)
Lemma delete_event_message_returns (event_id : string) (c : DiscordClient) :
  exists b c',
    delete_event_message event_id c = (Return b, c')
    /\ channel c' = channel c
    /\ (channel c = None ->
        event_message_map c' = event_message_map c
        /\ _url_to_message_map c' = _url_to_message_map c).
Proof.
  unfold delete_event_message. run.
  destruct (channel c) as [ch|] eqn:Hch; cbv beta iota.
  2: { eexists _, _; split; [reflexivity|]. fields. split; [assumption | now split]. }
  destruct (event_message_map c !! event_id) as [m|] eqn:Hid; cbv beta iota.
  2: { eexists _, _; split; [reflexivity|]. fields. split; [assumption | congruence]. }
  destruct (truthy_int m); cbv beta iota.
  2: { eexists _, _; split; [reflexivity|]. fields. split; [assumption | congruence]. }
  assert (Hhandler : forall e c1,
             channel c1 = Some ch -> event_message_map c1 !! event_id = Some m ->
             exists b c', delete_handler event_id m e c1 = (Return b, c')
                          /\ channel c' = Some ch).
  { intros e c1 Hc1 Hid1. unfold delete_handler.
    destruct (is_NotFound e); [|destruct (is_HTTPException e)]; run.
    - unfold del_event_message. fields. rewrite Hid1. now eexists _, _.
    - now eexists _, _.
    - now eexists _, _. }
  destruct (TextChannel.fetch_message ch (calls c) m) as [e|message]; cbv beta iota.
  - destruct (Hhandler e (record_call (CallFetchMessage m) c) Hch Hid)
      as (b & c' & -> & Hc'). eexists _, _; split; [reflexivity|]. split; congruence.
  - fields.
    destruct (TextChannel.delete ch (calls c ++ [CallFetchMessage m])%list message) as [e|];
      cbv beta iota.
    + destruct (Hhandler e (record_call (CallDelete (Message.id message))
                              (record_call (CallFetchMessage m) c)) Hch Hid)
        as (b & c' & -> & Hc'). eexists _, _; split; [reflexivity|]. split; congruence.
    + unfold del_event_message. fields. rewrite Hid.
      eexists _, _; split; [reflexivity|]. fields. split; congruence.
Qed.

(** Without a channel the loop of [sync_events] leaves the indices alone. *)
Lemma sync_loop_no_channel (events : list GoogleCalendarEvent.t) (stats : Stats)
    (c : DiscordClient) :
  channel c = None ->
  exists stats' c',
    for_each events stats sync_event c = (Return stats', c')
    /\ channel c' = None
    /\ event_message_map c' = event_message_map c
    /\ _url_to_message_map c' = _url_to_message_map c.
Proof.
  revert stats c. induction events as [|event l IH]; intros stats c Hch.
  - now eexists _, _.
  - pose proof (sync_event_run stats event c _ _ (upsert_event_no_channel event c Hch)) as Hstep.
    cbn [for_each]. unfold mbind, coro_bind at 1. rewrite Hstep.
    match goal with
    | |- context [for_each l ?s sync_event ?c1] =>
        destruct (IH s c1 Hch) as (stats2 & c2 & Hloop & Hc2 & Hev & Hurl)
    end.
    exists stats2, c2. repeat split; assumption.
Qed.

(** [sync_events] keeps the channel, and without one leaves the indices
    alone. *)
Lemma sync_events_frame (events : list GoogleCalendarEvent.t) (rebuild_mapping : bool)
    (c : DiscordClient) :
  exists stats c',
    sync_events events rebuild_mapping c = (Return stats, c')
    /\ channel c' = channel c
    /\ (channel c = None ->
        event_message_map c' = event_message_map c
        /\ _url_to_message_map c' = _url_to_message_map c).
Proof.
  unfold sync_events.
  assert (Hfirst : exists c0,
             (if rebuild_mapping then rebuild_event_mapping 200 else mret tt) c
             = (Return tt, c0)
             /\ channel c0 = channel c
             /\ (channel c = None ->
                 event_message_map c0 = event_message_map c
                 /\ _url_to_message_map c0 = _url_to_message_map c)).
  { destruct rebuild_mapping.
    - destruct (rebuild_event_mapping_returns 200 c) as (c0 & H0 & Hc0 & _).
      exists c0. split; [assumption|]. split; [assumption|].
      intros Hch. rewrite (rebuild_event_mapping_no_channel 200 c Hch) in H0.
      injection H0 as <-. now split.
    - exists c. split; [reflexivity|]. split; [reflexivity|]. now split. }
  destruct Hfirst as (c0 & H0 & Hc0 & Hsame0).
  unfold mbind, coro_bind at 1. rewrite H0.
  match goal with
  | |- context [for_each events ?s sync_event] =>
      destruct (sync_loop_returns events s c0) as (stats' & c1 & Hloop & Hc1 & _);
      pose proof (sync_loop_no_channel events s c0) as Hnone
  end.
  unfold mbind, coro_bind at 1. rewrite Hloop. run.
  eexists _, _; split; [reflexivity|]. fields. split; [congruence|].
  intros Hch. destruct (Hsame0 Hch) as [Hev0 Hurl0].
  rewrite Hch in Hc0. destruct (Hnone Hc0) as (stats2 & c2 & Hloop2 & _ & Hev2 & Hurl2).
  rewrite Hloop in Hloop2. injection Hloop2 as _ <-. split; congruence.
Qed.

(** A method that keeps the channel and, without one, the indices, keeps
    [index_needs_channel]. *)
Lemma index_needs_channel_step (c c' : DiscordClient) :
  index_needs_channel c ->
  channel c' = channel c ->
  (channel c = None ->
   event_message_map c' = event_message_map c
   /\ _url_to_message_map c' = _url_to_message_map c) ->
  index_needs_channel c'.
Proof.
  unfold index_needs_channel. intros Hinv Hc Hsame Hnone. rewrite Hc in Hnone.
  destruct (Hsame Hnone) as [-> ->]. now apply Hinv.
Qed.

(** Every method keeps [index_needs_channel], which holds of a new client:
    where an index has an entry, the channel is available. *)
Lemma index_needs_channel_preserved :
  index_needs_channel new_client
  /\ (forall limit c, index_needs_channel c ->
                      index_needs_channel (rebuild_event_mapping limit c).2)
  /\ (forall event c, index_needs_channel c ->
                      index_needs_channel (upsert_event event c).2)
  /\ (forall event_id c, index_needs_channel c ->
                         index_needs_channel (delete_event_message event_id c).2)
  /\ (forall events rebuild_mapping c,
        index_needs_channel c ->
        index_needs_channel (sync_events events rebuild_mapping c).2).
Proof.
  split; [intros _; now split|]. split; [|split; [|split]].
  - intros limit c Hinv.
    destruct (rebuild_event_mapping_returns limit c) as (c' & Hrun & Hc & _).
    apply (index_needs_channel_step c); [assumption | now rewrite Hrun |].
    intros Hch. now rewrite (rebuild_event_mapping_no_channel limit c Hch).
  - intros event c Hinv.
    destruct (upsert_event_returns event c) as (r & c' & Hrun & Hc).
    apply (index_needs_channel_step c); [assumption | now rewrite Hrun |].
    intros Hch. now rewrite (upsert_event_no_channel event c Hch).
  - intros event_id c Hinv.
    destruct (delete_event_message_returns event_id c) as (b & c' & Hrun & Hc & Hsame).
    apply (index_needs_channel_step c); [assumption | now rewrite Hrun |].
    now rewrite Hrun.
  - intros events rebuild_mapping c Hinv.
    destruct (sync_events_frame events rebuild_mapping c) as (stats & c' & Hrun & Hc & Hsame).
    apply (index_needs_channel_step c); [assumption | now rewrite Hrun |].
    now rewrite Hrun.
Qed.

(** ** The History Reconciler *)

(** C1, as the code has it.  With the channel available,
    [rebuild_event_mapping] returns for any reply of the history scan.  It
    clears the event-id index (not the durable-link index, which the scan
    starts from as it is).  Every scanned message of the bot account whose
    first embed has a non-empty url is recorded as [url -> message id] in the
    durable-link index, the last scanned one winning when several carry the
    same url; the other scanned messages add nothing and raise nothing: a url
    that no scanned message records keeps its entry. *)
Theorem rebuild_event_mapping_contract (limit : nat) (c : DiscordClient)
    (ch : TextChannel.t) (messages : list Message.t) (failure : option Exn) :
  channel c = Some ch ->
  TextChannel.history ch (calls c) limit = (messages, failure) ->
  exists c',
    rebuild_event_mapping limit c = (Return tt, c')
    /\ event_message_map c' = ∅
    /\ _url_to_message_map c'
       = scanned_links (client_user c) messages (_url_to_message_map c)
    /\ (forall pre message post u embed rest k,
          messages = (pre ++ message :: post)%list ->
          client_user c = Some u ->
          User.id (Message.author message) = User.id u ->
          Message.embeds message = embed :: rest ->
          Embed.url embed = Some k ->
          k <> "" ->
          (forall message' v', In message' post ->
                               recorded_link (Some u) message' <> Some (k, v')) ->
          _url_to_message_map c' !! k = Some (Message.id message))
    /\ (forall k,
          (forall message v, In message messages ->
                             recorded_link (client_user c) message <> Some (k, v)) ->
          _url_to_message_map c' !! k = _url_to_message_map c !! k).
Proof.
  intros Hch Hhist.
  destruct (rebuild_event_mapping_run limit c ch messages failure Hch Hhist)
    as (c' & Hrun & _ & _ & Hev & Hurl & _).
  exists c'. repeat split; try assumption.
  - intros pre message post u embed rest k -> Hu Ha He Hk Hne Hpost.
    rewrite Hurl, Hu. apply scanned_links_last; [|assumption].
    now apply (recorded_link_own u message embed rest k).
  - intros k Hno. rewrite Hurl. now apply scanned_links_frame.
Qed.

(** C2.  A run of [rebuild_event_mapping] that meets no error empties the
    event-id index and only adds to the durable-link index: every url that
    had an entry still has one, and a url that no scanned message records
    keeps the very entry it had. *)
Theorem rebuild_event_mapping_frame (limit : nat) (c : DiscordClient)
    (ch : TextChannel.t) (messages : list Message.t) :
  channel c = Some ch ->
  TextChannel.history ch (calls c) limit = (messages, None) ->
  exists c',
    rebuild_event_mapping limit c = (Return tt, c')
    /\ event_message_map c' = ∅
    /\ (forall k, is_Some (_url_to_message_map c !! k) ->
                  is_Some (_url_to_message_map c' !! k))
    /\ dom (_url_to_message_map c) ⊆ dom (_url_to_message_map c')
    /\ (forall k,
          (forall message v, In message messages ->
                             recorded_link (client_user c) message <> Some (k, v)) ->
          _url_to_message_map c' !! k = _url_to_message_map c !! k).
Proof.
  intros Hch Hhist.
  destruct (rebuild_event_mapping_run limit c ch messages None Hch Hhist)
    as (c' & Hrun & _ & _ & Hev & Hurl & _).
  exists c'. repeat split; try assumption.
  - intros k Hk. rewrite Hurl. now apply scanned_links_dom.
  - intros k Hk. apply elem_of_dom in Hk. apply elem_of_dom.
    rewrite Hurl. now apply scanned_links_dom.
  - intros k Hno. rewrite Hurl. now apply scanned_links_frame.
Qed.

(** ** The Upsert Engine *)

(** C3.  Cross-run durability via the link.  For an event with a non-empty
    link: if the event-id index has no entry for the event's id and the
    durable-link index maps the event's link to the message id [m] (a Discord
    id, hence not 0), [upsert_event] returns [m], issues no call to Discord,
    and backfills the event-id index with [event id -> m].  The channel is
    available, as it is in every state in which a method of the client has
    put an entry in an index ([index_needs_channel_preserved]). *)
Theorem upsert_event_found_by_link (event : GoogleCalendarEvent.t) (c : DiscordClient)
    (ch : TextChannel.t) (m : Z) :
  channel c = Some ch ->
  GoogleCalendarEvent.html_link event <> "" ->
  event_message_map c !! GoogleCalendarEvent.id event = None ->
  _url_to_message_map c !! GoogleCalendarEvent.html_link event = Some m ->
  m <> 0 ->
  exists c',
    upsert_event event c = (Return (Some m), c')
    /\ calls c' = calls c
    /\ event_message_map c' = <[GoogleCalendarEvent.id event := m]> (event_message_map c)
    /\ event_message_map c' !! GoogleCalendarEvent.id event = Some m
    /\ _url_to_message_map c' = _url_to_message_map c.
Proof.
  intros Hch Hlink Hid Hurl Hm.
  assert (Hprior : prior_mapping event c = Some m).
  { unfold prior_mapping, py_or. rewrite Hid. cbn.
    apply truthy_str_nonempty in Hlink. now rewrite Hlink. }
  destruct (upsert_event_skip event c ch m Hch Hprior Hm)
    as (c' & Hrun & _ & _ & Hev & Hu & Hcalls).
  exists c'. repeat split; try assumption.
  rewrite Hev. apply lookup_insert_eq.
Qed.

(** C4.  Idempotence.  With the channel available, when a call of
    [upsert_event] has returned the message id [m] (truthy, as a Discord id
    is), the next call for the same event returns [m] again, issues no call
    to Discord and leaves both indices as they were. *)
Theorem upsert_event_idempotent (event : GoogleCalendarEvent.t) (c c1 : DiscordClient)
    (ch : TextChannel.t) (m : Z) :
  channel c = Some ch ->
  upsert_event event c = (Return (Some m), c1) ->
  m <> 0 ->
  exists c2,
    upsert_event event c1 = (Return (Some m), c2)
    /\ calls c2 = calls c1
    /\ event_message_map c2 = event_message_map c1
    /\ _url_to_message_map c2 = _url_to_message_map c1.
Proof.
  intros Hch Hrun Hm.
  destruct (upsert_event_records event c c1 ch m Hch Hrun) as [Hch1 Hid].
  assert (Hprior : prior_mapping event c1 = Some m).
  { unfold prior_mapping, py_or. rewrite Hid. cbn.
    apply truthy_int_nonzero in Hm. now rewrite Hm. }
  destruct (upsert_event_skip event c1 ch m Hch1 Hprior Hm)
    as (c2 & Hrun2 & _ & _ & Hev & Hu & Hcalls).
  exists c2. repeat split; try assumption.
  rewrite Hev. now apply insert_id.
Qed.

(** C7.  No content mutation.  Let the durable-link index hold the message id
    [m] for the link of an event, the event-id index holding for its id
    either nothing or [m] as well.  Upserting an event with the same id and
    link, whatever its title, description and other fields, returns [m],
    issues no call to Discord (no send, no fetch, no edit), leaves the
    durable-link index as it was and keeps every entry of the event-id
    index. *)
Theorem upsert_event_no_content_mutation (event changed : GoogleCalendarEvent.t)
    (c : DiscordClient) (ch : TextChannel.t) (m : Z) :
  channel c = Some ch ->
  GoogleCalendarEvent.html_link event <> "" ->
  _url_to_message_map c !! GoogleCalendarEvent.html_link event = Some m ->
  m <> 0 ->
  (event_message_map c !! GoogleCalendarEvent.id event = None
   \/ event_message_map c !! GoogleCalendarEvent.id event = Some m) ->
  GoogleCalendarEvent.id changed = GoogleCalendarEvent.id event ->
  GoogleCalendarEvent.html_link changed = GoogleCalendarEvent.html_link event ->
  exists c',
    upsert_event changed c = (Return (Some m), c')
    /\ calls c' = calls c
    /\ _url_to_message_map c' = _url_to_message_map c
    /\ (forall k v, event_message_map c !! k = Some v -> event_message_map c' !! k = Some v)
    /\ event_message_map c' !! GoogleCalendarEvent.id event = Some m
    /\ _url_to_message_map c' !! GoogleCalendarEvent.html_link event = Some m.
Proof.
  intros Hch Hlink Hurl Hm Hid Heqid Heqlink.
  apply truthy_int_nonzero in Hm as Ht. apply truthy_str_nonempty in Hlink as Hl.
  assert (Hprior : prior_mapping changed c = Some m).
  { unfold prior_mapping, py_or. rewrite Heqid, Heqlink.
    destruct Hid as [-> | ->]; cbn; [now rewrite Hl | now rewrite Ht]. }
  destruct (upsert_event_skip changed c ch m Hch Hprior Hm)
    as (c' & Hrun & _ & _ & Hev & Hu & Hcalls).
  rewrite Heqid in Hev.
  exists c'. repeat split; try assumption.
  - intros k v Hk. rewrite Hev.
    destruct (decide (GoogleCalendarEvent.id event = k)) as [<-|Hne].
    + rewrite lookup_insert_eq. destruct Hid as [Hid | Hid]; congruence.
    + now rewrite lookup_insert_ne.
  - rewrite Hev. apply lookup_insert_eq.
  - now rewrite Hu.
Qed.

(** ** The Sync Orchestrator *)

(** One brand-new event, run through [sync_events]: the counts, the indices
    and the calls. *)
Lemma sync_events_brand_new_run (event : GoogleCalendarEvent.t) (c : DiscordClient)
    (ch : TextChannel.t) (rebuild_mapping : bool) (message : Message.t) :
  let embed := Embed.from_dict (GoogleCalendarEvent.to_discord_embed event) in
  let before := (if rebuild_mapping then calls c ++ [CallHistory 200] else calls c)%list in
  channel c = Some ch ->
  event_message_map c = ∅ ->
  _url_to_message_map c = ∅ ->
  (rebuild_mapping = true -> TextChannel.history ch (calls c) 200 = ([], None)) ->
  TextChannel.send ch before embed = inr message ->
  Message.id message <> 0 ->
  exists c',
    sync_events [event] rebuild_mapping c
    = (Return {| total := 1; created := 1; skipped := 0; failed := 0 |}, c')
    /\ event_message_map c' !! GoogleCalendarEvent.id event = Some (Message.id message)
    /\ (GoogleCalendarEvent.html_link event <> "" ->
        _url_to_message_map c' !! GoogleCalendarEvent.html_link event
        = Some (Message.id message))
    /\ (GoogleCalendarEvent.html_link event = "" -> _url_to_message_map c' = ∅)
    /\ prior_mapping event c = None
    /\ prior_mapping event c' = Some (Message.id message)
    /\ calls c' = (before ++ [CallSend embed])%list.
Proof.
  intros embed before Hch Hev Hurl Hhist Hsend Hid.
  assert (Hfirst : exists c0,
             (if rebuild_mapping then rebuild_event_mapping 200 else mret tt) c
             = (Return tt, c0)
             /\ channel c0 = Some ch
             /\ event_message_map c0 = ∅
             /\ _url_to_message_map c0 = ∅
             /\ calls c0 = before).
  { subst before. destruct rebuild_mapping.
    - destruct (rebuild_event_mapping_run 200 c ch [] None Hch (Hhist eq_refl))
        as (c0 & Hrun & _ & Hc & Hev0 & Hurl0 & Hcalls & _).
      cbn in Hurl0. exists c0. repeat split; try congruence.
    - exists c. repeat split; assumption. }
  destruct Hfirst as (c0 & Hrun0 & Hch0 & Hev0 & Hurl0 & Hcalls0).
  assert (Hprior0 : forall c1, event_message_map c1 = ∅ -> _url_to_message_map c1 = ∅ ->
                               prior_mapping event c1 = None).
  { intros c1 H1 H2. unfold prior_mapping, py_or. rewrite H1, H2, !lookup_empty. cbn.
    now destruct (truthy_str _). }
  assert (Hmiss : truthy_opt_int (prior_mapping event c0) = false)
    by now rewrite Hprior0.
  rewrite <- Hcalls0 in Hsend.
  destruct (upsert_event_create event c0 ch message Hch0 Hmiss Hsend)
    as (c1 & Hrun1 & _ & _ & Hev1 & Hurl1 & Hcalls1).
  pose proof (sync_event_run {| total := 1; created := 0; skipped := 0; failed := 0 |}
                event c0 c1 _ Hrun1) as Hstep.
  apply truthy_int_nonzero in Hid as Ht. cbn [truthy_opt_int] in Hstep.
  rewrite Ht, Hmiss in Hstep. cbn in Hstep.
  unfold sync_events. unfold mbind, coro_bind at 1. rewrite Hrun0.
  cbn [for_each length]. change (Z.of_nat 1) with 1.
  unfold mbind, coro_bind, mret, coro_ret. cbn beta. rewrite Hstep. run.
  eexists; split; [reflexivity|]. cbn.
  assert (Hid1 : event_message_map c1 !! GoogleCalendarEvent.id event
                 = Some (Message.id message)) by (rewrite Hev1; apply lookup_insert_eq).
  repeat split.
  - exact Hid1.
  - intros Hl. apply truthy_str_nonempty in Hl. rewrite Hurl1, Hl. apply lookup_insert_eq.
  - intros Hl. rewrite Hurl1, Hl. cbn. assumption.
  - now apply Hprior0.
  - unfold prior_mapping, py_or. cbn. rewrite Hid1. cbn. now rewrite Ht.
  - rewrite Hcalls1, Hcalls0. reflexivity.
Qed.

(** [sync_events] on one event without the rebuild, given what
    [upsert_event] does. *)
Lemma sync_events_single (event : GoogleCalendarEvent.t) (c c1 : DiscordClient)
    (r : option Z) :
  upsert_event event c = (Return r, c1) ->
  exists c2,
    sync_events [event] false c
    = (Return (if truthy_opt_int r then
                 if truthy_opt_int (prior_mapping event c) then
                   {| total := 1; created := 0; skipped := 1; failed := 0 |}
                 else {| total := 1; created := 1; skipped := 0; failed := 0 |}
               else {| total := 1; created := 0; skipped := 0; failed := 1 |}), c2)
    /\ event_message_map c2 = event_message_map c1
    /\ _url_to_message_map c2 = _url_to_message_map c1
    /\ calls c2 = calls c1.
Proof.
  intros Hrun.
  pose proof (sync_event_run {| total := 1; created := 0; skipped := 0; failed := 0 |}
                event c c1 r Hrun) as Hstep.
  unfold sync_events. cbn [for_each length]. change (Z.of_nat 1) with 1.
  unfold mbind, coro_bind, mret, coro_ret. cbn beta. rewrite Hstep. run.
  destruct (truthy_opt_int r); [destruct (truthy_opt_int (prior_mapping event c))|];
    eexists; (split; [reflexivity|]); now repeat split.
Qed.

(** C5, as the code has it.  One brand-new event: both indices empty, the
    channel available, the rebuild disabled or scanning an empty history, and
    [send] returning a message (with a Discord id, hence not 0).  Then
    [sync_events] returns [created = 1], [skipped = 0], [failed = 0] out of
    [total = 1]; afterwards the event-id index maps the event's id to the id
    of the new message, and the durable-link index maps the event's link to
    it when the link is not empty, while for an event with an empty link the
    durable-link index stays empty.

    Created or skipped is decided by the lookup made before [upsert_event] is
    called, in both indices, for any state of a client with a channel: an
    event whose id has a truthy entry in the event-id index is skipped; so is
    an event without such an entry whose non-empty link has a truthy entry in
    the durable-link index; an event found in neither index, once its message
    is sent, is counted as created, although after the call the event-id
    index holds it. *)
Theorem sync_events_brand_new (event : GoogleCalendarEvent.t) (c : DiscordClient)
    (ch : TextChannel.t) (rebuild_mapping : bool) (message : Message.t) :
  let embed := Embed.from_dict (GoogleCalendarEvent.to_discord_embed event) in
  let before := (if rebuild_mapping then calls c ++ [CallHistory 200] else calls c)%list in
  let one_created := {| total := 1; created := 1; skipped := 0; failed := 0 |} in
  let one_skipped := {| total := 1; created := 0; skipped := 1; failed := 0 |} in
  channel c = Some ch ->
  event_message_map c = ∅ ->
  _url_to_message_map c = ∅ ->
  (rebuild_mapping = true -> TextChannel.history ch (calls c) 200 = ([], None)) ->
  TextChannel.send ch before embed = inr message ->
  Message.id message <> 0 ->
  (exists c',
     sync_events [event] rebuild_mapping c = (Return one_created, c')
     /\ event_message_map c' !! GoogleCalendarEvent.id event = Some (Message.id message)
     /\ (GoogleCalendarEvent.html_link event <> "" ->
         _url_to_message_map c' !! GoogleCalendarEvent.html_link event
         = Some (Message.id message))
     /\ (GoogleCalendarEvent.html_link event = "" -> _url_to_message_map c' = ∅)
     /\ calls c' = (before ++ [CallSend embed])%list)
  /\ (forall (c0 : DiscordClient) (ch0 : TextChannel.t),
        channel c0 = Some ch0 ->
        (forall a,
           event_message_map c0 !! GoogleCalendarEvent.id event = Some a -> a <> 0 ->
           exists c1, sync_events [event] false c0 = (Return one_skipped, c1)
                      /\ calls c1 = calls c0)
        /\ (forall m,
              truthy_opt_int (event_message_map c0 !! GoogleCalendarEvent.id event) = false ->
              GoogleCalendarEvent.html_link event <> "" ->
              _url_to_message_map c0 !! GoogleCalendarEvent.html_link event = Some m ->
              m <> 0 ->
              exists c1, sync_events [event] false c0 = (Return one_skipped, c1)
                         /\ calls c1 = calls c0)
        /\ (forall message0,
              truthy_opt_int (event_message_map c0 !! GoogleCalendarEvent.id event) = false ->
              (GoogleCalendarEvent.html_link event = ""
               \/ truthy_opt_int
                    (_url_to_message_map c0 !! GoogleCalendarEvent.html_link event) = false) ->
              TextChannel.send ch0 (calls c0) embed = inr message0 ->
              Message.id message0 <> 0 ->
              exists c1, sync_events [event] false c0 = (Return one_created, c1)
                         /\ event_message_map c1 !! GoogleCalendarEvent.id event
                            = Some (Message.id message0)
                         /\ calls c1 = (calls c0 ++ [CallSend embed])%list)).
Proof.
  intros embed before one_created one_skipped Hch Hev Hurl Hhist Hsend Hid. split.
  - destruct (sync_events_brand_new_run event c ch rebuild_mapping message
                Hch Hev Hurl Hhist Hsend Hid)
      as (c' & Hrun & Hid' & Hlink & Hnolink & _ & _ & Hcalls).
    exists c'. repeat split; assumption.
  - intros c0 ch0 Hch0. split; [|split].
    + intros a Ha Hne. apply truthy_int_nonzero in Hne as Ht.
      assert (Hprior : prior_mapping event c0 = Some a).
      { unfold prior_mapping, py_or. rewrite Ha. cbn. now rewrite Ht. }
      destruct (upsert_event_skip event c0 ch0 a Hch0 Hprior Hne)
        as (c1 & Hrun & _ & _ & _ & _ & Hcalls).
      destruct (sync_events_single event c0 c1 _ Hrun) as (c2 & Hsync & _ & _ & Hcalls2).
      rewrite Hprior in Hsync. cbn [truthy_opt_int] in Hsync. rewrite Ht in Hsync.
      exists c2. split; [exact Hsync | congruence].
    + intros m Hmiss Hlink Hm Hne. apply truthy_int_nonzero in Hne as Ht.
      assert (Hprior : prior_mapping event c0 = Some m).
      { unfold prior_mapping, py_or. rewrite Hmiss.
        apply truthy_str_nonempty in Hlink. now rewrite Hlink. }
      destruct (upsert_event_skip event c0 ch0 m Hch0 Hprior Hne)
        as (c1 & Hrun & _ & _ & _ & _ & Hcalls).
      destruct (sync_events_single event c0 c1 _ Hrun) as (c2 & Hsync & _ & _ & Hcalls2).
      rewrite Hprior in Hsync. cbn [truthy_opt_int] in Hsync. rewrite Ht in Hsync.
      exists c2. split; [exact Hsync | congruence].
    + intros message0 Hmiss Hnolink Hsend0 Hne. apply truthy_int_nonzero in Hne as Ht.
      assert (Hprior : truthy_opt_int (prior_mapping event c0) = false).
      { unfold prior_mapping, py_or. rewrite Hmiss.
        destruct Hnolink as [-> | Hfalsy]; [reflexivity|].
        now destruct (truthy_str (GoogleCalendarEvent.html_link event)). }
      destruct (upsert_event_create event c0 ch0 message0 Hch0 Hprior Hsend0)
        as (c1 & Hrun & _ & _ & Hev1 & _ & Hcalls).
      destruct (sync_events_single event c0 c1 _ Hrun) as (c2 & Hsync & Hev2 & _ & Hcalls2).
      rewrite Hprior in Hsync. cbn [truthy_opt_int] in Hsync. rewrite Ht in Hsync.
      exists c2. split; [exact Hsync|]. split.
      * rewrite Hev2, Hev1. apply lookup_insert_eq.
      * subst embed. congruence.
Qed.

(** ** Errors *)

(** C6.  Transport errors stop at the operation boundary.  With the channel
    available, for every event and every exception [e] of the transport:
    - when [send] raises [e], [upsert_event] logs an error carrying the
      event's id and [str(e)], returns [None] and leaves both indices as they
      were, and the turn of the loop of [sync_events] for that event adds one
      to [failed] and to nothing else;
    - when the history scan raises [e] after yielding [messages],
      [rebuild_event_mapping] logs an error carrying [str(e)] and returns,
      the indices being what the scan had built so far;
    - [upsert_event], [rebuild_event_mapping] and [sync_events] return in
      every state and for every reply of the transport: none of them ends
      with [Raise]. *)
Theorem transport_errors_are_caught (event : GoogleCalendarEvent.t) (c : DiscordClient)
    (ch : TextChannel.t) (e : Exn) (limit : nat) (messages : list Message.t)
    (stats : Stats) :
  let embed := Embed.from_dict (GoogleCalendarEvent.to_discord_embed event) in
  channel c = Some ch ->
  (truthy_opt_int (prior_mapping event c) = false ->
   TextChannel.send ch (calls c) embed = inl e ->
   exists c' kw,
     upsert_event event c = (Return None, c')
     /\ last_logged c'
        = Some {| level := Error;
                  event := (if is_HTTPException e then "discord_http_error"
                            else "unexpected_error_upserting_event");
                  kwargs := ("event_id", LStr (GoogleCalendarEvent.id event))
                            :: ("error", LStr (str e)) :: kw |}
     /\ event_message_map c' = event_message_map c
     /\ _url_to_message_map c' = _url_to_message_map c
     /\ sync_event stats event c
        = (Return {| total := total stats; created := created stats;
                     skipped := skipped stats; failed := failed stats + 1 |}, c'))
  /\ (TextChannel.history ch (calls c) limit = (messages, Some e) ->
      exists c' kw,
        rebuild_event_mapping limit c = (Return tt, c')
        /\ last_logged c'
           = Some {| level := Error;
                     event := (if is_HTTPException e then "failed_to_rebuild_mapping"
                               else "unexpected_error_rebuilding_mapping");
                     kwargs := ("error", LStr (str e)) :: kw |}
        /\ event_message_map c' = ∅
        /\ _url_to_message_map c'
           = scanned_links (client_user c) messages (_url_to_message_map c))
  /\ (forall event0 c0, exists r c', upsert_event event0 c0 = (Return r, c'))
  /\ (forall limit0 c0, exists c', rebuild_event_mapping limit0 c0 = (Return tt, c'))
  /\ (forall events rebuild_mapping c0,
        exists stats' c',
          sync_events events rebuild_mapping c0 = (Return stats', c')
          /\ created stats' + skipped stats' + failed stats' = Z.of_nat (length events)).
Proof.
  intros embed Hch. repeat split.
  - intros Hmiss Hsend.
    destruct (upsert_event_send_raises event c ch e Hch Hmiss Hsend)
      as (c' & kw & Hrun & _ & _ & Hev & Hurl & _ & Hlog).
    exists c', kw. repeat split; try assumption.
    now rewrite (sync_event_run stats event c c' None Hrun).
  - intros Hhist.
    destruct (rebuild_event_mapping_run limit c ch messages (Some e) Hch Hhist)
      as (c' & Hrun & _ & _ & Hev & Hurl & _ & kw & Hlog).
    exists c', kw. repeat split; assumption.
  - intros event0 c0. destruct (upsert_event_returns event0 c0) as (r & c' & Hrun & _). eauto.
  - intros limit0 c0. destruct (rebuild_event_mapping_returns limit0 c0) as (c' & Hrun & _). eauto.
  - intros events rb c0.
    destruct (sync_events_returns events rb c0) as (stats' & c' & Hrun & Ht & _ & _ & _ & Hsum).
    exists stats', c'. split; [assumption | lia].
Qed.

(** C10.  Not-found on delete is success.  With the channel available and a
    message id recorded for the event id, when Discord answers [NotFound],
    to the fetch of the message or to its deletion, [delete_event_message]
    returns [True] and the event-id index has no entry for the event id any
    more; the durable-link index is not touched. *)
Theorem delete_event_message_not_found (event_id : string) (c : DiscordClient)
    (ch : TextChannel.t) (m : Z) (text : string) :
  channel c = Some ch ->
  event_message_map c !! event_id = Some m ->
  m <> 0 ->
  (TextChannel.fetch_message ch (calls c) m = inl (NotFound text)
   \/ exists message,
        TextChannel.fetch_message ch (calls c) m = inr message
        /\ TextChannel.delete ch (calls c ++ [CallFetchMessage m])%list message
           = Some (NotFound text)) ->
  exists c',
    delete_event_message event_id c = (Return true, c')
    /\ event_message_map c' !! event_id = None
    /\ event_message_map c' = delete event_id (event_message_map c)
    /\ _url_to_message_map c' = _url_to_message_map c.
Proof.
  intros Hch Hid Hm Hnf. apply truthy_int_nonzero in Hm as Ht.
  unfold delete_event_message. run. rewrite Hch. cbv beta iota. rewrite Hid, Ht.
  destruct Hnf as [Hfetch | (message & Hfetch & Hdel)].
  - rewrite Hfetch. cbv beta iota. unfold delete_handler. cbv beta iota.
    cbn [is_NotFound]. run. unfold del_event_message. fields. rewrite Hid.
    eexists; split; [reflexivity|]. fields. repeat split. apply lookup_delete_eq.
  - rewrite Hfetch. cbv beta iota. fields. rewrite Hdel. cbv beta iota.
    unfold delete_handler. cbn [is_NotFound]. run. unfold del_event_message. fields.
    rewrite Hid.
    eexists; split; [reflexivity|]. fields. repeat split. apply lookup_delete_eq.
Qed.

(** * The laws on the sample data *)

(** A description of 1030 characters is cut to 1024; a short one is kept. *)
Lemma description_truncation_law_witness :
  (field_value "📝 Description" (GoogleCalendarEvent.to_discord_embed long_event)
     = Some (slice_to 1021 (letters 1030) ++ "...")
   /\ String.length (slice_to 1021 (letters 1030) ++ "...") = 1024%nat
   /\ String.length (slice_to 1021 (letters 1030)) = 1021%nat
   /\ String.prefix (slice_to 1021 (letters 1030)) (letters 1030) = true)
  /\ field_value "📝 Description" (GoogleCalendarEvent.to_discord_embed short_event)
     = Some "Bring slides".
Proof.
  split.
  - apply (proj1 (description_truncation_law long_event (letters 1030) eq_refl)).
    apply Nat.ltb_lt. vm_compute. reflexivity.
  - apply (proj2 (description_truncation_law short_event "Bring slides" eq_refl)).
    + apply Nat.leb_le. vm_compute. reflexivity.
    + discriminate.
Defined.

(** Twelve attendees: ten are listed, two are counted; two attendees: both
    are listed. *)
Lemma attendee_cap_law_witness :
  field_value "👥 Attendees" (GoogleCalendarEvent.to_discord_embed crowded_event)
  = Some ("a01@x.org, a02@x.org, a03@x.org, a04@x.org, a05@x.org, "
          ++ "a06@x.org, a07@x.org, a08@x.org, a09@x.org, a10@x.org (+2 more)")
  /\ field_value "👥 Attendees" (GoogleCalendarEvent.to_discord_embed small_event)
     = Some "a01@x.org, a02@x.org".
Proof.
  split.
  - eapply eq_trans.
    + apply (proj1 (attendee_cap_law crowded_event ltac:(discriminate))).
      apply Nat.ltb_lt. vm_compute. reflexivity.
    + vm_compute. reflexivity.
  - eapply eq_trans.
    + apply (proj2 (attendee_cap_law small_event ltac:(discriminate))).
      apply Nat.leb_le. vm_compute. reflexivity.
    + vm_compute. reflexivity.
Defined.

(** The scan of the two sample messages: both links are recorded, the older
    link stays, the event-id index is emptied. *)
Lemma rebuild_event_mapping_contract_witness :
  exists c',
    rebuild_event_mapping 200 two_links_client = (Return tt, c')
    /\ event_message_map c' = ∅
    /\ _url_to_message_map c' !! "https://www.google.com/calendar/event?eid=event1"
       = Some 1001
    /\ _url_to_message_map c' !! "https://www.google.com/calendar/event?eid=event2"
       = Some 1002
    /\ _url_to_message_map c' !! "https://www.google.com/calendar/event?eid=old"
       = Some 5.
Proof.
  destruct (rebuild_event_mapping_contract 200 two_links_client
              (mock_channel [mock_message_1; mock_message_2] None (inr mock_new_message))
              [mock_message_1; mock_message_2] None eq_refl eq_refl)
    as (c' & Hrun & Hev & _ & Hrec & Hframe).
  exists c'. split; [exact Hrun|]. split; [exact Hev|]. split; [|split].
  - apply (Hrec [] mock_message_1 [mock_message_2] bot
             (embed_with_url "https://www.google.com/calendar/event?eid=event1") []);
      try reflexivity; try discriminate.
    intros message' v' [<- | []]. vm_compute. discriminate.
  - apply (Hrec [mock_message_1] mock_message_2 [] bot
             (embed_with_url "https://www.google.com/calendar/event?eid=event2") []);
      try reflexivity; try discriminate.
    intros message' v' [].
  - rewrite Hframe; [vm_compute; reflexivity|].
    intros message v [<- | [<- | []]]; vm_compute; discriminate.
Defined.

(** C1, as the spec states it, fails: a rebuild does not clear the
    durable-link index.  On a channel with an empty history, the index after
    the rebuild still holds the entry it held before, so it is not the index
    built from the scan alone. *)
Lemma rebuild_event_mapping_keeps_link_index :
  channel stale_client = Some quiet_channel
  /\ TextChannel.history quiet_channel (calls stale_client) 200 = ([], None)
  /\ _url_to_message_map (rebuild_event_mapping 200 stale_client).2
       !! "https://www.google.com/calendar/event?eid=old" = Some 5
  /\ _url_to_message_map (rebuild_event_mapping 200 stale_client).2
     <> scanned_links (client_user stale_client) [] ∅.
Proof.
  split; [reflexivity|]. split; [reflexivity|]. split; [vm_compute; reflexivity|].
  intros Heq.
  apply (f_equal (fun m : gmap string Z =>
                    m !! "https://www.google.com/calendar/event?eid=old")) in Heq.
  vm_compute in Heq. discriminate.
Qed.

Lemma rebuild_event_mapping_frame_witness :
  exists c',
    rebuild_event_mapping 200 two_links_client = (Return tt, c')
    /\ event_message_map c' = ∅
    /\ (forall k, is_Some (_url_to_message_map two_links_client !! k) ->
                  is_Some (_url_to_message_map c' !! k))
    /\ dom (_url_to_message_map two_links_client) ⊆ dom (_url_to_message_map c')
    /\ (forall k,
          (forall message v, In message [mock_message_1; mock_message_2] ->
                             recorded_link (client_user two_links_client) message
                             <> Some (k, v)) ->
          _url_to_message_map c' !! k = _url_to_message_map two_links_client !! k).
Proof.
  apply (rebuild_event_mapping_frame 200 two_links_client
           (mock_channel [mock_message_1; mock_message_2] None (inr mock_new_message)));
    reflexivity.
Defined.

Lemma upsert_event_found_by_link_witness :
  exists c',
    upsert_event test_event found_by_url_client = (Return (Some 5000), c')
    /\ calls c' = calls found_by_url_client
    /\ event_message_map c'
       = <[GoogleCalendarEvent.id test_event := 5000]>
           (event_message_map found_by_url_client)
    /\ event_message_map c' !! GoogleCalendarEvent.id test_event = Some 5000
    /\ _url_to_message_map c' = _url_to_message_map found_by_url_client.
Proof.
  apply (upsert_event_found_by_link test_event found_by_url_client quiet_channel 5000).
  - reflexivity.
  - discriminate.
  - vm_compute. reflexivity.
  - vm_compute. reflexivity.
  - lia.
Defined.

Lemma upsert_event_idempotent_witness :
  exists c2,
    upsert_event brand_new_event (upsert_event brand_new_event fresh_client).2
    = (Return (Some 6000), c2)
    /\ calls c2 = calls (upsert_event brand_new_event fresh_client).2
    /\ event_message_map c2
       = event_message_map (upsert_event brand_new_event fresh_client).2
    /\ _url_to_message_map c2
       = _url_to_message_map (upsert_event brand_new_event fresh_client).2.
Proof.
  apply (upsert_event_idempotent brand_new_event fresh_client
           (upsert_event brand_new_event fresh_client).2 quiet_channel 6000).
  - reflexivity.
  - vm_compute. reflexivity.
  - lia.
Defined.

Lemma upsert_event_no_content_mutation_witness :
  exists c',
    upsert_event test_event_retitled found_by_url_client = (Return (Some 5000), c')
    /\ calls c' = calls found_by_url_client
    /\ _url_to_message_map c' = _url_to_message_map found_by_url_client
    /\ (forall k v, event_message_map found_by_url_client !! k = Some v ->
                    event_message_map c' !! k = Some v)
    /\ event_message_map c' !! GoogleCalendarEvent.id test_event = Some 5000
    /\ _url_to_message_map c' !! GoogleCalendarEvent.html_link test_event = Some 5000.
Proof.
  apply (upsert_event_no_content_mutation test_event test_event_retitled
           found_by_url_client quiet_channel 5000).
  - reflexivity.
  - discriminate.
  - vm_compute. reflexivity.
  - lia.
  - left. vm_compute. reflexivity.
  - reflexivity.
  - reflexivity.
Defined.

(** The brand-new event of the tests is created; the event of
    [test_upsert_event_finds_by_url], found by its link alone, is skipped. *)
Lemma sync_events_brand_new_witness :
  (exists c',
     sync_events [brand_new_event] true fresh_client
     = (Return {| total := 1; created := 1; skipped := 0; failed := 0 |}, c')
     /\ event_message_map c' !! "brand_new_event" = Some 6000
     /\ _url_to_message_map c' !! "https://www.google.com/calendar/event?eid=brandnew"
        = Some 6000
     /\ calls c'
        = [CallHistory 200;
           CallSend (Embed.from_dict
                       (GoogleCalendarEvent.to_discord_embed brand_new_event))])
  /\ (exists c1,
        sync_events [brand_new_event] false
          (ready_client quiet_channel ∅
             {["https://www.google.com/calendar/event?eid=brandnew" := 5000]})
        = (Return {| total := 1; created := 0; skipped := 1; failed := 0 |}, c1)
        /\ calls c1 = []).
Proof.
  destruct (sync_events_brand_new brand_new_event fresh_client quiet_channel true
              mock_new_message eq_refl eq_refl eq_refl (fun _ => eq_refl) eq_refl
              ltac:(discriminate))
    as [(c' & Hrun & Hid & Hlink & _ & Hcalls) Hclass].
  split.
  - exists c'. split; [exact Hrun|]. split; [exact Hid|]. split; [|exact Hcalls].
    apply Hlink. discriminate.
  - destruct (Hclass (ready_client quiet_channel ∅
                        {["https://www.google.com/calendar/event?eid=brandnew" := 5000]})
                quiet_channel eq_refl) as (_ & Hbylink & _).
    apply (Hbylink 5000).
    + vm_compute. reflexivity.
    + discriminate.
    + vm_compute. reflexivity.
    + lia.
Defined.

(** C5, as the spec states it, fails for an event without a link: the event
    is brand new, the indices are empty, the channel is available and the
    send succeeds; the event is created, and the durable-link index holds
    nothing for its link afterwards. *)
Lemma sync_events_brand_new_without_link :
  channel fresh_client = Some quiet_channel
  /\ event_message_map fresh_client = ∅
  /\ _url_to_message_map fresh_client = ∅
  /\ TextChannel.send quiet_channel (calls fresh_client)
       (Embed.from_dict (GoogleCalendarEvent.to_discord_embed linkless_event))
     = inr mock_new_message
  /\ (sync_events [linkless_event] false fresh_client).1
     = Return {| total := 1; created := 1; skipped := 0; failed := 0 |}
  /\ event_message_map (sync_events [linkless_event] false fresh_client).2
       !! GoogleCalendarEvent.id linkless_event = Some 6000
  /\ _url_to_message_map (sync_events [linkless_event] false fresh_client).2
       !! GoogleCalendarEvent.html_link linkless_event = None.
Proof.
  repeat split; vm_compute; reflexivity.
Qed.

(** On the failing channel: the send of a new event and the scan both end in
    a logged error, not in an exception, and the scan keeps the link it had
    recorded before it broke. *)
Lemma transport_errors_are_caught_witness :
  (exists c' kw,
     upsert_event brand_new_event failing_client = (Return None, c')
     /\ last_logged c'
        = Some {| level := Error;
                  event := "discord_http_error";
                  kwargs := ("event_id", LStr "brand_new_event")
                            :: ("error", LStr "Service Unavailable") :: kw |}
     /\ event_message_map c' = event_message_map failing_client
     /\ _url_to_message_map c' = _url_to_message_map failing_client
     /\ sync_event {| total := 1; created := 0; skipped := 0; failed := 0 |}
          brand_new_event failing_client
        = (Return {| total := 1; created := 0; skipped := 0; failed := 0 + 1 |}, c'))
  /\ (exists c' kw,
        rebuild_event_mapping 200 failing_client = (Return tt, c')
        /\ last_logged c'
           = Some {| level := Error;
                     event := "failed_to_rebuild_mapping";
                     kwargs := ("error", LStr "Service Unavailable") :: kw |}
        /\ event_message_map c' = ∅
        /\ _url_to_message_map c'
           = scanned_links (Some bot) [mock_message_1] ∅).
Proof.
  pose proof (transport_errors_are_caught brand_new_event failing_client
                (mock_channel [mock_message_1] (Some service_unavailable)
                   (inl service_unavailable))
                service_unavailable 200 [mock_message_1]
                {| total := 1; created := 0; skipped := 0; failed := 0 |} eq_refl)
    as (Hsend & Hscan & _).
  split.
  - apply Hsend; vm_compute; reflexivity.
  - apply Hscan; reflexivity.
Defined.

Lemma delete_event_message_not_found_witness :
  exists c',
    delete_event_message "new_event_123" lost_message_client = (Return true, c')
    /\ event_message_map c' !! "new_event_123" = None
    /\ event_message_map c' = delete "new_event_123" (event_message_map lost_message_client)
    /\ _url_to_message_map c' = _url_to_message_map lost_message_client.
Proof.
  apply (delete_event_message_not_found "new_event_123" lost_message_client
           quiet_channel 5000 "Unknown Message").
  - reflexivity.
  - vm_compute. reflexivity.
  - lia.
  - left. reflexivity.
Defined.

(** * Further properties of the Discord client *)

(** ** [on_ready] and the reachable states *)

(** [on_ready] returns; it touches the channel and the log only, and sets the
    channel exactly when the cache holds a text channel for the id. *)
Lemma on_ready_run (discord_channel_id : Z) (get_channel : Z -> Exn + option CachedChannel)
    (c : DiscordClient) :
  exists c',
    on_ready discord_channel_id get_channel c = (Return tt, c')
    /\ client_user c' = client_user c
    /\ event_message_map c' = event_message_map c
    /\ _url_to_message_map c' = _url_to_message_map c
    /\ calls c' = calls c
    /\ channel c' = match get_channel discord_channel_id with
                    | inr (Some (IsTextChannel ch)) => Some ch
                    | _ => channel c
                    end.
Proof.
  unfold on_ready. run.
  destruct (client_user c) as [u|] eqn:Hu; cbn;
    destruct (get_channel discord_channel_id) as [e | [[ch | other] |]]; cbn;
    eexists; (split; [reflexivity|]); cbn; repeat split; congruence.
Qed.

(** A state predicate that ignores the log and that [rebuild_event_mapping]
    and [upsert_event] keep is kept by [sync_events]. *)
Lemma sync_events_preserves (P : DiscordClient -> Prop) :
  (forall r c, P c -> P (emit r c)) ->
  (forall limit c, P c -> P (rebuild_event_mapping limit c).2) ->
  (forall event c, P c -> P (upsert_event event c).2) ->
  forall events rebuild_mapping c, P c -> P (sync_events events rebuild_mapping c).2.
Proof.
  intros Hemit Hrebuild Hupsert events rebuild_mapping c HP.
  assert (Hloop : forall l stats c0, P c0 -> P (for_each l stats sync_event c0).2).
  { induction l as [|event l IH]; intros stats c0 HP0; [exact HP0|].
    destruct (upsert_event_returns event c0) as (r & c1 & Hrun & _).
    pose proof (sync_event_run stats event c0 c1 r Hrun) as Hstep.
    cbn [for_each]. unfold mbind, coro_bind at 1. rewrite Hstep.
    apply IH. specialize (Hupsert event c0 HP0). now rewrite Hrun in Hupsert. }
  unfold sync_events.
  assert (Hfirst : exists c0,
             (if rebuild_mapping then rebuild_event_mapping 200 else mret tt) c
             = (Return tt, c0) /\ P c0).
  { destruct rebuild_mapping.
    - destruct (rebuild_event_mapping_returns 200 c) as (c0 & H0 & _).
      exists c0. split; [assumption|]. specialize (Hrebuild 200%nat c HP).
      now rewrite H0 in Hrebuild.
    - now exists c. }
  destruct Hfirst as (c0 & H0 & HP0).
  unfold mbind, coro_bind at 1. rewrite H0.
  match goal with
  | |- context [for_each events ?s sync_event] =>
      specialize (Hloop events s c0 HP0);
      destruct (sync_loop_returns events s c0) as (stats' & c1 & Hrun & _)
  end.
  unfold mbind, coro_bind at 1. rewrite Hrun in Hloop |- *. run. now apply Hemit.
Qed.

(** In every state a client reaches, an index holds an entry only if the
    channel is available: without a channel both indices are empty. *)
Theorem reachable_index_needs_channel (c : DiscordClient) :
  reachable c ->
  channel c = None -> event_message_map c = ∅ /\ _url_to_message_map c = ∅.
Proof.
  intros Hreach. change (index_needs_channel c).
  destruct index_needs_channel_preserved as (Hnew & Hrebuild & Hupsert & Hdelete & Hsync).
  induction Hreach as [|c c' _ IH Hstep]; [exact Hnew|].
  destruct Hstep as [id get_channel c | limit c | event c | event_id c
                    | events rebuild_mapping c | u c].
  - destruct (on_ready_run id get_channel c) as (c' & Hrun & _ & Hev & Hurl & _ & Hch).
    rewrite Hrun. cbn. intros Hnone. rewrite Hev, Hurl. apply IH.
    rewrite Hch in Hnone.
    destruct (get_channel id) as [e | [[ch | other] |]]; congruence.
  - now apply Hrebuild.
  - now apply Hupsert.
  - now apply Hdelete.
  - now apply Hsync.
  - exact IH.
Qed.

Lemma reachable_index_needs_channel_witness :
  event_message_map (upsert_event brand_new_event new_client).2 = ∅
  /\ _url_to_message_map (upsert_event brand_new_event new_client).2 = ∅.
Proof.
  apply (reachable_index_needs_channel (upsert_event brand_new_event new_client).2).
  - apply (reachable_step new_client); [apply reachable_new | apply step_upsert].
  - reflexivity.
Defined.



(** The scanning loop records non-empty urls only. *)
Lemma recorded_link_key_nonempty (u : option User.t) (message : Message.t)
    (k : string) (v : Z) :
  recorded_link u message = Some (k, v) -> k <> "".
Proof.
  unfold recorded_link.
  destruct (own_message_with_embeds u message); [|discriminate].
  destruct (Message.embeds message) as [|embed rest]; [discriminate|].
  destruct (Embed.url embed) as [url|]; cbn; [|discriminate].
  destruct (truthy_str url) eqn:Ht; [|discriminate].
  intros [= <- _]. now apply truthy_str_nonempty.
Qed.

(** What [upsert_event] does to the durable-link index: nothing, or the
    entry for the event's non-empty link. *)
Lemma upsert_event_link_index (event : GoogleCalendarEvent.t) (c : DiscordClient) :
  _url_to_message_map (upsert_event event c).2 = _url_to_message_map c
  \/ (GoogleCalendarEvent.html_link event <> ""
      /\ exists m, _url_to_message_map (upsert_event event c).2
                   = <[GoogleCalendarEvent.html_link event := m]> (_url_to_message_map c)).
Proof.
  destruct (channel c) as [ch|] eqn:Hch.
  - destruct (prior_mapping_cases event c) as [(m & Hp & Hm) | Hp].
    + destruct (upsert_event_skip event c ch m Hch Hp Hm) as (c' & -> & _ & _ & _ & Hurl & _).
      now left.
    + destruct (TextChannel.send ch (calls c)
                  (Embed.from_dict (GoogleCalendarEvent.to_discord_embed event)))
        as [e|message] eqn:Hsend.
      * destruct (upsert_event_send_raises event c ch e Hch Hp Hsend)
          as (c' & kw & -> & _ & _ & _ & Hurl & _). now left.
      * destruct (upsert_event_create event c ch message Hch Hp Hsend)
          as (c' & -> & _ & _ & _ & Hurl & _). cbn. rewrite Hurl.
        destruct (truthy_str (GoogleCalendarEvent.html_link event)) eqn:Ht; [right | now left].
        split; [now apply truthy_str_nonempty | eauto].
  - rewrite upsert_event_no_channel by assumption. now left.
Qed.

(** [delete_event_message] in full: it returns, never touches the
    durable-link index or the channel, and its result tells whether the entry
    of the event-id index was removed. *)
Lemma delete_event_message_run (event_id : string) (c : DiscordClient) :
  exists b c',
    delete_event_message event_id c = (Return b, c')
    /\ client_user c' = client_user c
    /\ channel c' = channel c
    /\ _url_to_message_map c' = _url_to_message_map c
    /\ event_message_map c'
       = (if b then delete event_id (event_message_map c) else event_message_map c)
    /\ (b = true -> is_Some (channel c)
                    /\ truthy_opt_int (event_message_map c !! event_id) = true).
Proof.
  unfold delete_event_message. run.
  destruct (channel c) as [ch|] eqn:Hch; cbv beta iota.
  2: { eexists _, _; split; [reflexivity|]. fields. repeat split; congruence. }
  destruct (event_message_map c !! event_id) as [m|] eqn:Hid; cbv beta iota.
  2: { eexists _, _; split; [reflexivity|]. fields. repeat split; congruence. }
  destruct (truthy_int m) eqn:Ht; cbv beta iota.
  2: { eexists _, _; split; [reflexivity|]. fields. repeat split; congruence. }
  assert (Hhandler : forall e c1,
             client_user c1 = client_user c -> channel c1 = Some ch ->
             event_message_map c1 = event_message_map c ->
             _url_to_message_map c1 = _url_to_message_map c ->
             exists b c', delete_handler event_id m e c1 = (Return b, c')
                          /\ client_user c' = client_user c
                          /\ channel c' = Some ch
                          /\ _url_to_message_map c' = _url_to_message_map c
                          /\ event_message_map c'
                             = (if b then delete event_id (event_message_map c)
                                else event_message_map c)).
  { intros e c1 Hu1 Hc1 Hev1 Hurl1. unfold delete_handler.
    destruct (is_NotFound e); [|destruct (is_HTTPException e)]; run.
    - unfold del_event_message. fields. rewrite Hev1, Hid.
      eexists _, _; split; [reflexivity|]. fields. repeat split; congruence.
    - eexists _, _; split; [reflexivity|]. fields. repeat split; congruence.
    - eexists _, _; split; [reflexivity|]. fields. repeat split; congruence. }
  destruct (TextChannel.fetch_message ch (calls c) m) as [e|message]; cbv beta iota.
  - destruct (Hhandler e (record_call (CallFetchMessage m) c) eq_refl Hch eq_refl eq_refl)
      as (b & c' & -> & Hu' & Hc' & Hurl' & Hev').
    eexists _, _; split; [reflexivity|]. repeat split; eauto; congruence.
  - fields.
    destruct (TextChannel.delete ch (calls c ++ [CallFetchMessage m])%list message) as [e|];
      cbv beta iota.
    + destruct (Hhandler e (record_call (CallDelete (Message.id message))
                              (record_call (CallFetchMessage m) c))
                  eq_refl Hch eq_refl eq_refl)
        as (b & c' & -> & Hu' & Hc' & Hurl' & Hev').
      eexists _, _; split; [reflexivity|]. repeat split; eauto; congruence.
    + unfold del_event_message. fields. rewrite Hid.
      eexists _, _; split; [reflexivity|]. fields. repeat split; eauto.
Qed.

(** The empty string is never a key of the durable-link index: the scan and
    [upsert_event] both record a link only when it is not empty. *)
Theorem reachable_no_empty_link (c : DiscordClient) :
  reachable c -> _url_to_message_map c !! "" = None.
Proof.
  set (P := fun c : DiscordClient => _url_to_message_map c !! "" = None).
  assert (Hrebuild : forall limit c, P c -> P (rebuild_event_mapping limit c).2).
  { intros limit c0 HP. unfold P in *. destruct (channel c0) as [ch|] eqn:Hch.
    - destruct (TextChannel.history ch (calls c0) limit) as [messages failure] eqn:Hh.
      destruct (rebuild_event_mapping_run limit c0 ch messages failure Hch Hh)
        as (c' & -> & _ & _ & _ & Hurl & _).
      cbn. rewrite Hurl, scanned_links_frame; [assumption|].
      intros message v _ Hrec. now apply recorded_link_key_nonempty in Hrec.
    - now rewrite rebuild_event_mapping_no_channel. }
  assert (Hupsert : forall event c, P c -> P (upsert_event event c).2).
  { intros event c0 HP. unfold P in *.
    destruct (upsert_event_link_index event c0) as [-> | (Hne & m & ->)]; [assumption|].
    now rewrite lookup_insert_ne. }
  intros Hreach. change (P c).
  induction Hreach as [|c c' _ IH Hstep]; [reflexivity|].
  destruct Hstep as [id get_channel c | limit c | event c | event_id c
                    | events rebuild_mapping c | u c].
  - destruct (on_ready_run id get_channel c) as (c' & -> & _ & _ & Hurl & _).
    unfold P in *. cbn. now rewrite Hurl.
  - now apply Hrebuild.
  - now apply Hupsert.
  - destruct (delete_event_message_run event_id c) as (b & c' & -> & _ & _ & Hurl & _).
    unfold P in *. cbn. now rewrite Hurl.
  - apply sync_events_preserves; try assumption. intros r c0 HP. exact HP.
  - exact IH.
Qed.

Lemma reachable_no_empty_link_witness :
  _url_to_message_map
    (upsert_event (make_event "no_link" "No link" None "" [])
       (on_ready 12345 (fun _ => inr (Some (IsTextChannel quiet_channel))) new_client).2).2
    !! "" = None.
Proof.
  apply reachable_no_empty_link.
  eapply reachable_step; [|apply step_upsert].
  eapply reachable_step; [apply reachable_new | apply step_on_ready].
Defined.

(** ** [delete_event_message] *)

(** [delete_event_message] raises nothing and never touches the durable-link
    index; it returns [True] exactly when it has removed the entry of the
    event id from the event-id index, and [False] with the index as it
    was. *)
Theorem delete_event_message_result (event_id : string) (c : DiscordClient) :
  exists b c',
    delete_event_message event_id c = (Return b, c')
    /\ _url_to_message_map c' = _url_to_message_map c
    /\ (b = true ->
        is_Some (event_message_map c !! event_id)
        /\ event_message_map c' = delete event_id (event_message_map c))
    /\ (b = false -> event_message_map c' = event_message_map c).
Proof.
  destruct (delete_event_message_run event_id c)
    as (b & c' & Hrun & _ & _ & Hurl & Hev & Htrue).
  exists b, c'. split; [assumption|]. split; [assumption|]. split.
  - intros ->. split; [|assumption].
    destruct (Htrue eq_refl) as [_ Ht].
    destruct (event_message_map c !! event_id); [eauto | discriminate].
  - now intros ->.
Qed.

(** Deleting twice: once a call has returned [True], the next call for the
    same event id finds no entry, asks nothing of Discord and returns
    [False]. *)
Theorem delete_event_message_twice (event_id : string) (c c1 : DiscordClient) :
  delete_event_message event_id c = (Return true, c1) ->
  exists c2,
    delete_event_message event_id c1 = (Return false, c2)
    /\ calls c2 = calls c1
    /\ event_message_map c2 = event_message_map c1.
Proof.
  intros Hrun.
  destruct (delete_event_message_run event_id c)
    as (b & c' & Hrun' & _ & Hc & _ & Hev & Htrue).
  rewrite Hrun in Hrun'. injection Hrun' as <- <-.
  destruct (Htrue eq_refl) as [[ch Hch] _].
  assert (Hmiss : truthy_opt_int (event_message_map c1 !! event_id) = false)
    by now rewrite Hev, lookup_delete_eq.
  rewrite Hch in Hc.
  destruct (delete_event_message_unmapped event_id c1 ch Hc Hmiss) as (c2 & H2 & Hev2 & Hcalls2).
  now exists c2.
Qed.

Lemma delete_event_message_twice_witness :
  exists c2,
    delete_event_message "new_event_123"
      (delete_event_message "new_event_123" lost_message_client).2
    = (Return false, c2)
    /\ calls c2 = calls (delete_event_message "new_event_123" lost_message_client).2
    /\ event_message_map c2
       = event_message_map (delete_event_message "new_event_123" lost_message_client).2.
Proof.
  apply (delete_event_message_twice "new_event_123" lost_message_client).
  vm_compute. reflexivity.
Defined.

(** The link outlives the deletion.  After [delete_event_message] has
    returned [True] for an event whose non-empty link is in the durable-link
    index, [upsert_event] for that event sends nothing: it returns the id the
    link index still holds and puts it back in the event-id index. *)
Theorem delete_then_upsert_finds_link (event : GoogleCalendarEvent.t)
    (c c1 : DiscordClient) (m : Z) :
  GoogleCalendarEvent.html_link event <> "" ->
  _url_to_message_map c !! GoogleCalendarEvent.html_link event = Some m ->
  m <> 0 ->
  delete_event_message (GoogleCalendarEvent.id event) c = (Return true, c1) ->
  event_message_map c1 !! GoogleCalendarEvent.id event = None
  /\ exists c2,
       upsert_event event c1 = (Return (Some m), c2)
       /\ calls c2 = calls c1
       /\ event_message_map c2 !! GoogleCalendarEvent.id event = Some m.
Proof.
  intros Hlink Hurl Hm Hrun.
  destruct (delete_event_message_run (GoogleCalendarEvent.id event) c)
    as (b & c' & Hrun' & _ & Hc & Hurl' & Hev & Htrue).
  rewrite Hrun in Hrun'. injection Hrun' as <- <-.
  destruct (Htrue eq_refl) as [[ch Hch] _].
  assert (Hid : event_message_map c1 !! GoogleCalendarEvent.id event = None)
    by now rewrite Hev, lookup_delete_eq.
  split; [assumption|].
  assert (Hprior : prior_mapping event c1 = Some m).
  { unfold prior_mapping, py_or. rewrite Hid, Hurl'. cbn.
    apply truthy_str_nonempty in Hlink. now rewrite Hlink. }
  rewrite Hch in Hc.
  destruct (upsert_event_skip event c1 ch m Hc Hprior Hm)
    as (c2 & Hrun2 & _ & _ & Hev2 & _ & Hcalls2).
  exists c2. repeat split; try assumption.
  rewrite Hev2. apply lookup_insert_eq.
Qed.

(** ** [upsert_event]: sends and identities *)

Lemma count_sends_snoc (l : list Call) (k : Call) :
  count_sends (l ++ [k]) = count_sends l + (if is_send k then 1 else 0).
Proof.
  unfold count_sends. rewrite List.filter_app, length_app. cbn.
  destruct (is_send k); cbn; lia.
Qed.

(** With a channel, [upsert_event] sends once when the event has no prior
    mapping and not at all when it has one, in which case it succeeds. *)
Lemma upsert_event_accounting (event : GoogleCalendarEvent.t) (c : DiscordClient)
    (ch : TextChannel.t) :
  channel c = Some ch ->
  exists r c',
    upsert_event event c = (Return r, c')
    /\ channel c' = Some ch
    /\ count_sends (calls c')
       = count_sends (calls c) + (if truthy_opt_int (prior_mapping event c) then 0 else 1)
    /\ (truthy_opt_int (prior_mapping event c) = true -> truthy_opt_int r = true).
Proof.
  intros Hch.
  destruct (prior_mapping_cases event c) as [(m & Hp & Hm) | Hp].
  - destruct (upsert_event_skip event c ch m Hch Hp Hm) as (c' & Hrun & _ & Hc & _ & _ & Hcalls).
    apply truthy_int_nonzero in Hm.
    exists (Some m), c'. rewrite Hp, Hcalls. cbn. rewrite Hm.
    repeat split; try assumption; try congruence. lia.
  - destruct (TextChannel.send ch (calls c)
                (Embed.from_dict (GoogleCalendarEvent.to_discord_embed event)))
      as [e|message] eqn:Hsend.
    + destruct (upsert_event_send_raises event c ch e Hch Hp Hsend)
        as (c' & kw & Hrun & _ & Hc & _ & _ & Hcalls & _).
      exists None, c'. rewrite Hp, Hcalls, count_sends_snoc. cbn.
      repeat split; try assumption; congruence.
    + destruct (upsert_event_create event c ch message Hch Hp Hsend)
        as (c' & Hrun & _ & Hc & _ & _ & Hcalls).
      exists (Some (Message.id message)), c'. rewrite Hp, Hcalls, count_sends_snoc. cbn.
      repeat split; try assumption; congruence.
Qed.

(** One call of [upsert_event] raises nothing and issues at most one call to
    Discord, the send of the event's embed; an id it returns is the one the
    event-id index then holds for the event, and when it returns [None] both
    indices are as they were. *)
Theorem upsert_event_at_most_one_send (event : GoogleCalendarEvent.t) (c : DiscordClient) :
  let embed := Embed.from_dict (GoogleCalendarEvent.to_discord_embed event) in
  exists r c',
    upsert_event event c = (Return r, c')
    /\ (calls c' = calls c \/ calls c' = (calls c ++ [CallSend embed])%list)
    /\ (forall m, r = Some m ->
                  event_message_map c' !! GoogleCalendarEvent.id event = Some m)
    /\ (r = None ->
        event_message_map c' = event_message_map c
        /\ _url_to_message_map c' = _url_to_message_map c).
Proof.
  intros embed. destruct (channel c) as [ch|] eqn:Hch.
  - destruct (prior_mapping_cases event c) as [(m & Hp & Hm) | Hp].
    + destruct (upsert_event_skip event c ch m Hch Hp Hm)
        as (c' & Hrun & _ & _ & Hev & _ & Hcalls).
      exists (Some m), c'. split; [assumption|]. split; [now left|]. split.
      * intros m' [= <-]. rewrite Hev. apply lookup_insert_eq.
      * discriminate.
    + destruct (TextChannel.send ch (calls c) embed) as [e|message] eqn:Hsend.
      * destruct (upsert_event_send_raises event c ch e Hch Hp Hsend)
          as (c' & kw & Hrun & _ & _ & Hev & Hurl & Hcalls & _).
        exists None, c'. split; [assumption|]. split; [now right|]. split.
        -- discriminate.
        -- now intros _.
      * destruct (upsert_event_create event c ch message Hch Hp Hsend)
          as (c' & Hrun & _ & _ & Hev & _ & Hcalls).
        exists (Some (Message.id message)), c'.
        split; [assumption|]. split; [now right|]. split.
        -- intros m' [= <-]. rewrite Hev. apply lookup_insert_eq.
        -- discriminate.
  - rewrite upsert_event_no_channel by assumption.
    exists None, (emit {| level := Error; event := "channel_not_available";
                          kwargs := [] |} c).
    split; [reflexivity|]. split; [now left|]. split; [discriminate|]. now intros _.
Qed.

(** The event id decides.  After [upsert_event] has returned the id [m] for
    an event, it returns [m] for every event with the same id, whatever its
    link; it sends nothing, and a link that differs is not recorded. *)
Theorem upsert_event_same_id (event other : GoogleCalendarEvent.t)
    (c c1 : DiscordClient) (ch : TextChannel.t) (m : Z) :
  channel c = Some ch ->
  upsert_event event c = (Return (Some m), c1) ->
  m <> 0 ->
  GoogleCalendarEvent.id other = GoogleCalendarEvent.id event ->
  exists c2,
    upsert_event other c1 = (Return (Some m), c2)
    /\ calls c2 = calls c1
    /\ event_message_map c2 = event_message_map c1
    /\ _url_to_message_map c2 = _url_to_message_map c1.
Proof.
  intros Hch Hrun Hm Hid.
  destruct (upsert_event_records event c c1 ch m Hch Hrun) as [Hch1 Hrec].
  assert (Hprior : prior_mapping other c1 = Some m).
  { unfold prior_mapping, py_or. rewrite Hid, Hrec. cbn.
    apply truthy_int_nonzero in Hm. now rewrite Hm. }
  destruct (upsert_event_skip other c1 ch m Hch1 Hprior Hm)
    as (c2 & Hrun2 & _ & _ & Hev & Hurl & Hcalls).
  exists c2. repeat split; try assumption.
  rewrite Hev, Hid. now apply insert_id.
Qed.

(** One message per link.  When [upsert_event] has created the message of an
    event with a non-empty link, an event with another id and the same link
    is not posted: the call returns the id of the first message, sends
    nothing, and both event ids map to that message. *)
Theorem upsert_event_same_link (event other : GoogleCalendarEvent.t)
    (c : DiscordClient) (ch : TextChannel.t) (message : Message.t) :
  channel c = Some ch ->
  truthy_opt_int (prior_mapping event c) = false ->
  TextChannel.send ch (calls c)
    (Embed.from_dict (GoogleCalendarEvent.to_discord_embed event)) = inr message ->
  Message.id message <> 0 ->
  GoogleCalendarEvent.html_link event <> "" ->
  GoogleCalendarEvent.html_link other = GoogleCalendarEvent.html_link event ->
  GoogleCalendarEvent.id other <> GoogleCalendarEvent.id event ->
  event_message_map c !! GoogleCalendarEvent.id other = None ->
  exists c1 c2,
    upsert_event event c = (Return (Some (Message.id message)), c1)
    /\ upsert_event other c1 = (Return (Some (Message.id message)), c2)
    /\ calls c2 = calls c1
    /\ event_message_map c2 !! GoogleCalendarEvent.id event = Some (Message.id message)
    /\ event_message_map c2 !! GoogleCalendarEvent.id other = Some (Message.id message).
Proof.
  intros Hch Hp Hsend Hm Hlink Heq Hne Hother.
  destruct (upsert_event_create event c ch message Hch Hp Hsend)
    as (c1 & Hrun & _ & Hc1 & Hev1 & Hurl1 & _).
  apply truthy_str_nonempty in Hlink as Hl. rewrite Hl in Hurl1.
  assert (Hprior : prior_mapping other c1 = Some (Message.id message)).
  { unfold prior_mapping, py_or. rewrite Hev1, lookup_insert_ne by congruence.
    rewrite Hother. cbn. rewrite Heq, Hl, Hurl1. apply lookup_insert_eq. }
  rewrite Hch in Hc1.
  destruct (upsert_event_skip other c1 ch _ Hc1 Hprior Hm)
    as (c2 & Hrun2 & _ & _ & Hev2 & _ & Hcalls).
  exists c1, c2. repeat split; try assumption.
  - rewrite Hev2, lookup_insert_ne by assumption. rewrite Hev1. apply lookup_insert_eq.
  - rewrite Hev2. apply lookup_insert_eq.
Qed.

(** ** [sync_events]: accounts *)

(** The loop with a channel: every event that is created or failed has cost
    one send, every skipped event none. *)
Lemma sync_loop_accounting (events : list GoogleCalendarEvent.t) (stats : Stats)
    (c : DiscordClient) (ch : TextChannel.t) :
  channel c = Some ch ->
  exists stats' c',
    for_each events stats sync_event c = (Return stats', c')
    /\ count_sends (calls c') - count_sends (calls c)
       = (created stats' - created stats) + (failed stats' - failed stats).
Proof.
  revert stats c. induction events as [|event l IH]; intros stats c Hch.
  - eexists _, _; split; [reflexivity|]. lia.
  - destruct (upsert_event_accounting event c ch Hch) as (r & c1 & Hrun & Hc1 & Hsends & Hr).
    pose proof (sync_event_run stats event c c1 r Hrun) as Hstep.
    cbn [for_each]. unfold mbind, coro_bind at 1. rewrite Hstep.
    match goal with
    | |- context [for_each l ?s sync_event c1] =>
        destruct (IH s c1 Hc1) as (stats2 & c2 & Hloop & Hacc)
    end.
    exists stats2, c2. split; [exact Hloop|].
    destruct (truthy_opt_int (prior_mapping event c)) eqn:Hp.
    + rewrite (Hr eq_refl) in Hacc. cbn [created failed] in Hacc. lia.
    + destruct (truthy_opt_int r); cbn [created failed] in Hacc; lia.
Qed.

(** With a channel, the number of sends of one [sync_events] is
    [created + failed]: a skipped event sends nothing, and the rebuild sends
    nothing. *)
Theorem sync_events_send_accounting (events : list GoogleCalendarEvent.t)
    (rebuild_mapping : bool) (c : DiscordClient) (ch : TextChannel.t) :
  channel c = Some ch ->
  exists stats c',
    sync_events events rebuild_mapping c = (Return stats, c')
    /\ count_sends (calls c') = count_sends (calls c) + created stats + failed stats.
Proof.
  intros Hch. unfold sync_events.
  assert (Hfirst : exists c0,
             (if rebuild_mapping then rebuild_event_mapping 200 else mret tt) c
             = (Return tt, c0)
             /\ channel c0 = Some ch
             /\ count_sends (calls c0) = count_sends (calls c)).
  { destruct rebuild_mapping.
    - destruct (rebuild_event_mapping_returns 200 c) as (c0 & H0 & Hc0 & Hcalls).
      exists c0. rewrite Hch in Hc0, Hcalls. rewrite Hcalls, count_sends_snoc. cbn.
      repeat split; try assumption. lia.
    - exists c. now repeat split. }
  destruct Hfirst as (c0 & H0 & Hc0 & Hs0).
  unfold mbind, coro_bind at 1. rewrite H0.
  match goal with
  | |- context [for_each events ?s sync_event] =>
      destruct (sync_loop_accounting events s c0 ch Hc0) as (stats' & c1 & Hloop & Hacc)
  end.
  unfold mbind, coro_bind at 1. rewrite Hloop. run.
  eexists _, _; split; [reflexivity|]. cbn [created failed] in Hacc. fields. lia.
Qed.

(** Every event lands in exactly one counter: [sync_events] raises nothing
    and returns counts that are not negative and add up to
    [total = len(events)]. *)
Theorem sync_events_counts (events : list GoogleCalendarEvent.t) (rebuild_mapping : bool)
    (c : DiscordClient) :
  exists stats c',
    sync_events events rebuild_mapping c = (Return stats, c')
    /\ total stats = Z.of_nat (length events)
    /\ 0 <= created stats /\ 0 <= skipped stats /\ 0 <= failed stats
    /\ created stats + skipped stats + failed stats = total stats.
Proof. apply sync_events_returns. Qed.

(** The loop without a channel: every event fails, nothing else happens. *)
Lemma sync_loop_all_fail (events : list GoogleCalendarEvent.t) (stats : Stats)
    (c : DiscordClient) :
  channel c = None ->
  exists c',
    for_each events stats sync_event c
    = (Return {| total := total stats; created := created stats;
                 skipped := skipped stats;
                 failed := failed stats + Z.of_nat (length events) |}, c')
    /\ channel c' = None
    /\ event_message_map c' = event_message_map c
    /\ _url_to_message_map c' = _url_to_message_map c
    /\ calls c' = calls c.
Proof.
  revert stats c. induction events as [|event l IH]; intros stats c Hch.
  - exists c. cbn. rewrite Z.add_0_r. destruct stats. now repeat split.
  - pose proof (sync_event_run stats event c _ _ (upsert_event_no_channel event c Hch)) as Hstep.
    cbn [for_each]. unfold mbind, coro_bind at 1. rewrite Hstep. cbn [truthy_opt_int].
    match goal with
    | |- context [for_each l ?s sync_event ?c1] =>
        destruct (IH s c1 Hch) as (c2 & Hloop & Hc2 & Hev & Hurl & Hcalls)
    end.
    exists c2. rewrite Hloop. cbn [total created skipped failed length].
    repeat split; try assumption. do 2 f_equal. f_equal. lia.
Qed.

(** Without a channel [sync_events] counts every event as failed, issues no
    call to Discord and leaves both indices as they were. *)
Theorem sync_events_no_channel (events : list GoogleCalendarEvent.t)
    (rebuild_mapping : bool) (c : DiscordClient) :
  channel c = None ->
  exists c',
    sync_events events rebuild_mapping c
    = (Return {| total := Z.of_nat (length events); created := 0; skipped := 0;
                 failed := Z.of_nat (length events) |}, c')
    /\ calls c' = calls c
    /\ event_message_map c' = event_message_map c
    /\ _url_to_message_map c' = _url_to_message_map c.
Proof.
  intros Hch. unfold sync_events.
  assert (Hfirst : exists c0,
             (if rebuild_mapping then rebuild_event_mapping 200 else mret tt) c
             = (Return tt, c0)
             /\ channel c0 = None
             /\ event_message_map c0 = event_message_map c
             /\ _url_to_message_map c0 = _url_to_message_map c
             /\ calls c0 = calls c).
  { destruct rebuild_mapping.
    - rewrite rebuild_event_mapping_no_channel by assumption. eexists. now repeat split.
    - exists c. now repeat split. }
  destruct Hfirst as (c0 & H0 & Hc0 & Hev0 & Hurl0 & Hcalls0).
  unfold mbind, coro_bind at 1. rewrite H0.
  match goal with
  | |- context [for_each events ?s sync_event] =>
      destruct (sync_loop_all_fail events s c0 Hc0) as (c1 & Hloop & _ & Hev1 & Hurl1 & Hcalls1)
  end.
  unfold mbind, coro_bind at 1. rewrite Hloop. run.
  eexists; split; [reflexivity|]. fields. repeat split; congruence.
Qed.

(** An event whose non-empty link is in the durable-link index with a
    non-zero id has a truthy prior mapping. *)
Lemma prior_mapping_of_link (event : GoogleCalendarEvent.t) (c : DiscordClient) (m : Z) :
  GoogleCalendarEvent.html_link event <> "" ->
  _url_to_message_map c !! GoogleCalendarEvent.html_link event = Some m ->
  m <> 0 ->
  exists s, prior_mapping event c = Some s /\ s <> 0.
Proof.
  intros Hlink Hurl Hm. unfold prior_mapping, py_or.
  destruct (event_message_map c !! GoogleCalendarEvent.id event) as [a|]; cbn.
  - destruct (truthy_int a) eqn:Ha.
    + exists a. split; [reflexivity | now apply truthy_int_nonzero].
    + apply truthy_str_nonempty in Hlink. rewrite Hlink. eauto.
  - apply truthy_str_nonempty in Hlink. rewrite Hlink. eauto.
Qed.

(** The loop over events whose links are all in the durable-link index:
    every event is skipped and nothing is sent. *)
Lemma sync_loop_all_skip (events : list GoogleCalendarEvent.t) (stats : Stats)
    (c : DiscordClient) (ch : TextChannel.t) :
  channel c = Some ch ->
  (forall event, In event events ->
     GoogleCalendarEvent.html_link event <> ""
     /\ exists m, _url_to_message_map c !! GoogleCalendarEvent.html_link event = Some m
                  /\ m <> 0) ->
  exists c',
    for_each events stats sync_event c
    = (Return {| total := total stats; created := created stats;
                 skipped := skipped stats + Z.of_nat (length events);
                 failed := failed stats |}, c')
    /\ _url_to_message_map c' = _url_to_message_map c
    /\ calls c' = calls c.
Proof.
  revert stats c. induction events as [|event l IH]; intros stats c Hch Hall.
  - exists c. cbn. rewrite Z.add_0_r. destruct stats. now repeat split.
  - destruct (Hall event (or_introl eq_refl)) as (Hlink & m & Hurl & Hm).
    destruct (prior_mapping_of_link event c m Hlink Hurl Hm) as (s & Hp & Hs).
    destruct (upsert_event_skip event c ch s Hch Hp Hs)
      as (c1 & Hrun & _ & Hc1 & _ & Hurl1 & Hcalls1).
    pose proof (sync_event_run stats event c c1 _ Hrun) as Hstep.
    apply truthy_int_nonzero in Hs. rewrite Hp in Hstep. cbn [truthy_opt_int] in Hstep.
    rewrite Hs in Hstep.
    cbn [for_each]. unfold mbind, coro_bind at 1. rewrite Hstep.
    rewrite Hch in Hc1.
    match goal with
    | |- context [for_each l ?s sync_event c1] =>
        destruct (IH s c1 Hc1) as (c2 & Hloop & Hurl2 & Hcalls2)
    end.
    { intros e He. rewrite Hurl1. apply Hall. now right. }
    exists c2. rewrite Hloop. cbn [total created skipped failed length].
    repeat split; try congruence. do 2 f_equal. f_equal. lia.
Qed.

(** No duplicates across runs.  When the history scan has recorded, with a
    non-zero message id, the non-empty link of every event of the batch,
    [sync_events] with the rebuild skips them all: [skipped = len(events)],
    nothing is created or failed, and the scan is the only call made to
    Discord.  This holds whatever the indices held before, and even when the
    scan ends in an error after yielding those messages. *)
Theorem sync_events_after_history (events : list GoogleCalendarEvent.t)
    (c : DiscordClient) (ch : TextChannel.t) (messages : list Message.t)
    (failure : option Exn) :
  channel c = Some ch ->
  TextChannel.history ch (calls c) 200 = (messages, failure) ->
  (forall event, In event events ->
     GoogleCalendarEvent.html_link event <> ""
     /\ exists m, scanned_links (client_user c) messages (_url_to_message_map c)
                    !! GoogleCalendarEvent.html_link event = Some m
                  /\ m <> 0) ->
  exists c',
    sync_events events true c
    = (Return {| total := Z.of_nat (length events); created := 0;
                 skipped := Z.of_nat (length events); failed := 0 |}, c')
    /\ calls c' = (calls c ++ [CallHistory 200])%list.
Proof.
  intros Hch Hhist Hall.
  destruct (rebuild_event_mapping_run 200 c ch messages failure Hch Hhist)
    as (c0 & Hrun0 & _ & Hc0 & _ & Hurl0 & Hcalls0 & _).
  unfold sync_events. unfold mbind, coro_bind at 1. rewrite Hrun0.
  rewrite Hch in Hc0.
  match goal with
  | |- context [for_each events ?s sync_event] =>
      destruct (sync_loop_all_skip events s c0 ch Hc0) as (c1 & Hloop & _ & Hcalls1)
  end.
  { intros e He. rewrite Hurl0. now apply Hall. }
  unfold mbind, coro_bind at 1. rewrite Hloop. run.
  eexists; split; [reflexivity|]. fields. congruence.
Qed.

(** ** [rebuild_event_mapping]: repeated scans *)

(** For each url, a scan either decides its entry or leaves it alone,
    whatever index it starts from. *)
Lemma scanned_links_decides (u : option User.t) (messages : list Message.t) (k : string) :
  (exists v, forall start, scanned_links u messages start !! k = Some v)
  \/ (forall start, scanned_links u messages start !! k = start !! k).
Proof.
  induction messages as [|message l IH] using rev_ind; [now right|].
  destruct (recorded_link u message) as [[k' v']|] eqn:Hrec.
  - destruct (decide (k' = k)) as [->|Hne].
    + left. exists v'. intros start. rewrite scanned_links_app. cbn. rewrite Hrec.
      apply lookup_insert_eq.
    + destruct IH as [(v & Hv) | Hframe].
      * left. exists v. intros start. rewrite scanned_links_app. cbn. rewrite Hrec.
        now rewrite lookup_insert_ne.
      * right. intros start. rewrite scanned_links_app. cbn. rewrite Hrec.
        now rewrite lookup_insert_ne.
  - destruct IH as [(v & Hv) | Hframe].
    + left. exists v. intros start. rewrite scanned_links_app. cbn. now rewrite Hrec.
    + right. intros start. rewrite scanned_links_app. cbn. now rewrite Hrec.
Qed.

Lemma scanned_links_idempotent (u : option User.t) (messages : list Message.t)
    (start : gmap string Z) :
  scanned_links u messages (scanned_links u messages start)
  = scanned_links u messages start.
Proof.
  apply map_eq. intros k.
  destruct (scanned_links_decides u messages k) as [(v & Hv) | Hframe].
  - now rewrite !Hv.
  - now rewrite Hframe.
Qed.

(** Rebuilding again over the same history changes nothing: when the scan
    replies with the same messages to two rebuilds in a row, both indices
    after the second are what they were after the first. *)
Theorem rebuild_event_mapping_repeatable (limit : nat) (c : DiscordClient)
    (ch : TextChannel.t) (messages : list Message.t) (failure failure' : option Exn) :
  channel c = Some ch ->
  TextChannel.history ch (calls c) limit = (messages, failure) ->
  TextChannel.history ch (calls c ++ [CallHistory limit])%list limit = (messages, failure') ->
  exists c1 c2,
    rebuild_event_mapping limit c = (Return tt, c1)
    /\ rebuild_event_mapping limit c1 = (Return tt, c2)
    /\ event_message_map c2 = event_message_map c1
    /\ _url_to_message_map c2 = _url_to_message_map c1.
Proof.
  intros Hch Hh Hh'.
  destruct (rebuild_event_mapping_run limit c ch messages failure Hch Hh)
    as (c1 & Hrun1 & Hu1 & Hc1 & Hev1 & Hurl1 & Hcalls1 & _).
  rewrite Hch in Hc1. rewrite <- Hcalls1 in Hh'.
  destruct (rebuild_event_mapping_run limit c1 ch messages failure' Hc1 Hh')
    as (c2 & Hrun2 & _ & _ & Hev2 & Hurl2 & _).
  exists c1, c2. repeat split; try assumption; [congruence|].
  rewrite Hurl2, Hu1, Hurl1. apply scanned_links_idempotent.
Qed.

(** * Properties of the calendar side *)

(** ** [GoogleCalendarEvent.__init__] *)

(** The comprehension of [__init__] keeps the order and the repetitions of
    the record. *)
Lemma attendees_comprehension (l : list EventData.attendee_dict) :
  List.map (fun attendee => default "" (EventData.email attendee))
    (List.filter (fun attendee => truthy_opt_str (EventData.email attendee)) l)
  = nonempty_emails l.
Proof.
  induction l as [|[[address|]] l IH]; [reflexivity| |exact IH]. cbn.
  destruct (truthy_str address); cbn; [now rewrite IH | exact IH].
Qed.

(** The attendees of a built event are exactly the non-empty [email] values
    of the record, in the order of the record and as often as the record has
    them: an attendee without an address, or with an empty one, is dropped
    and nothing else is, so that the first ten that the embed lists are the
    first ten attendees of the record that have an address.  No address of
    an event is empty. *)
Theorem built_event_attendees (fromisoformat : string -> string + datetime)
    (event_data : EventData.t) :
  let event := (GoogleCalendarEvent__init__ fromisoformat event_data).1 in
  let listed := default [] (EventData.attendees event_data) in
  GoogleCalendarEvent.attendees event = nonempty_emails listed
  /\ (forall pre post address,
        address <> "" ->
        nonempty_emails (pre ++ {| EventData.email := Some address |} :: post)
        = (nonempty_emails pre ++ address :: nonempty_emails post)%list)
  /\ (forall pre post attendee,
        EventData.email attendee = None \/ EventData.email attendee = Some "" ->
        nonempty_emails (pre ++ attendee :: post)
        = (nonempty_emails pre ++ nonempty_emails post)%list)
  /\ Forall (fun address => address <> "") (GoogleCalendarEvent.attendees event)
  /\ (forall address,
        In address (GoogleCalendarEvent.attendees event)
        <-> address <> "" /\ In {| EventData.email := Some address |} listed)
  /\ (length (GoogleCalendarEvent.attendees event) <= length listed)%nat.
Proof.
  intros event listed.
  assert (Happ : forall l1 l2,
             nonempty_emails (l1 ++ l2) = (nonempty_emails l1 ++ nonempty_emails l2)%list).
  { induction l1 as [|attendee l1 IH]; intros l2; [reflexivity|]. cbn.
    destruct (EventData.email attendee) as [address|]; [|apply IH].
    destruct (truthy_str address); [now rewrite IH | apply IH]. }
  assert (Heq : GoogleCalendarEvent.attendees event = nonempty_emails listed).
  { subst event. unfold GoogleCalendarEvent__init__.
    destruct (_parse_datetime fromisoformat _) as [start_time start_warnings].
    destruct (_parse_datetime fromisoformat _) as [end_time end_warnings].
    cbn [fst GoogleCalendarEvent.attendees]. apply attendees_comprehension. }
  assert (Hin : forall address,
             In address (nonempty_emails listed)
             <-> address <> "" /\ In {| EventData.email := Some address |} listed).
  { intros address. rewrite <- attendees_comprehension, in_map_iff. split.
    - intros ([[address'|]] & <- & Hf); apply filter_In in Hf as [Hl Ht]; cbn in *;
        [|discriminate].
      split; [now apply truthy_str_nonempty | assumption].
    - intros [Hne Hl]. exists {| EventData.email := Some address |}.
      split; [reflexivity|]. apply filter_In. split; [assumption|].
      cbn. now apply truthy_str_nonempty. }
  split; [exact Heq|]. split; [|split; [|split; [|split]]].
  - intros pre post address Hne. rewrite Happ. cbn.
    apply truthy_str_nonempty in Hne. now rewrite Hne.
  - intros pre post attendee Hnone. rewrite Happ. cbn.
    now destruct Hnone as [-> | ->].
  - rewrite Heq. apply List.Forall_forall. intros address Ha. now apply Hin in Ha.
  - intros address. rewrite Heq. apply Hin.
  - rewrite Heq, <- attendees_comprehension, length_map. apply List.filter_length_le.
Qed.

(** A join of strings of which the first is not empty is not empty. *)
Lemma join_nonempty (sep x : string) (l : list string) :
  x <> "" -> join sep (x :: l) <> "".
Proof.
  intros Hx. destruct x as [|a x]; [congruence|].
  destruct l; cbn; [discriminate|].
  change (String a x ++ sep ++ join sep (s :: l)) with
    (String a (x ++ sep ++ join sep (s :: l))). discriminate.
Qed.

Lemma append_nonempty (s1 s2 : string) : s1 <> "" -> s1 ++ s2 <> "".
Proof.
  destruct s1 as [|a s1]; [congruence|]. intros _.
  change (String a s1 ++ s2) with (String a (s1 ++ s2)). discriminate.
Qed.

(** From the API record to the embed: the attendee field is rendered exactly
    when some attendee of the record has a non-empty address, and its value
    is then not empty. *)
Theorem built_event_attendee_field (fromisoformat : string -> string + datetime)
    (event_data : EventData.t) :
  let event := (GoogleCalendarEvent__init__ fromisoformat event_data).1 in
  let rendered :=
    field_value "👥 Attendees" (GoogleCalendarEvent.to_discord_embed event) in
  (is_Some rendered
   <-> exists address,
         address <> ""
         /\ In {| EventData.email := Some address |}
              (default [] (EventData.attendees event_data)))
  /\ (forall v, rendered = Some v -> v <> "").
Proof.
  intros event rendered.
  destruct (built_event_attendees fromisoformat event_data) as (_ & _ & _ & Hall & Hin & _).
  fold event in Hall, Hin. subst rendered. rewrite field_value_attendees.
  unfold GoogleCalendarEvent.attendees_fields.
  destruct (GoogleCalendarEvent.attendees event) as [|a l] eqn:Ha.
  - split.
    + split; [intros [v Hv]; discriminate|]. intros (address & Hne & Hl).
      exfalso. apply (proj2 (Hin address)); auto.
    + discriminate.
  - split.
    + split; [|cbn; eauto]. intros _. exists a. apply Hin. now left.
    + intros v [= <-]. unfold GoogleCalendarEvent.attendees_str.
      apply List.Forall_inv in Hall.
      destruct (10 <? length (a :: l))%nat.
      * apply append_nonempty. now apply join_nonempty.
      * now apply join_nonempty.
Qed.

(** ** [_parse_datetime] *)

Lemma contains_char_append (a : ascii) (s1 s2 : string) :
  contains_char a (s1 ++ s2) = contains_char a s1 || contains_char a s2.
Proof.
  induction s1 as [|b s1 IH]; [reflexivity|].
  change (String b s1 ++ s2) with (String b (s1 ++ s2)). cbn.
  now destruct (Ascii.eqb a b).
Qed.

(** After [replace("Z", "+00:00")] no ["Z"] is left. *)
Lemma replace_Z_no_Z (s : string) :
  contains_char "Z" (replace_char "Z" "+00:00" s) = false.
Proof.
  induction s as [|b s IH]; [reflexivity|]. cbn [replace_char].
  destruct (Ascii.eqb "Z" b) eqn:Hb.
  - rewrite contains_char_append, IH. reflexivity.
  - cbn [contains_char]. now rewrite Hb.
Qed.

(** A string without ["Z"] is its own replacement. *)
Lemma replace_Z_id (s : string) :
  contains_char "Z" s = false -> replace_char "Z" "+00:00" s = s.
Proof.
  induction s as [|b s IH]; [reflexivity|]. cbn [contains_char replace_char].
  destruct (Ascii.eqb "Z" b); [discriminate|]. intros H. now rewrite IH.
Qed.

(** The replacement keeps every ["T"]. *)
Lemma replace_Z_keeps_T (s : string) :
  contains_char "T" (replace_char "Z" "+00:00" s) = contains_char "T" s.
Proof.
  induction s as [|b s IH]; [reflexivity|]. cbn [replace_char].
  destruct (Ascii.eqb "Z" b) eqn:Hb.
  - apply Ascii.eqb_eq in Hb as <-. rewrite contains_char_append, IH. reflexivity.
  - cbn [contains_char]. now rewrite IH.
Qed.

(** A timestamp with the suffix ["Z"] and the same timestamp with the offset
    ["+00:00"] parse to the same time: for a string that has a ["T"],
    [_parse_datetime] gives the parser the string with each ["Z"] replaced,
    in which no ["Z"] is left. *)
Theorem parse_datetime_utc_suffix (fromisoformat : string -> string + datetime)
    (dt_string : string) :
  contains_char "T" dt_string = true ->
  (_parse_datetime fromisoformat (Some dt_string)).1
  = (_parse_datetime fromisoformat (Some (replace_char "Z" "+00:00" dt_string))).1
  /\ contains_char "Z" (replace_char "Z" "+00:00" dt_string) = false
  /\ (_parse_datetime fromisoformat (Some dt_string)).1
     = match fromisoformat (replace_char "Z" "+00:00" dt_string) with
       | inr dt => Some dt
       | inl _ => None
       end.
Proof.
  intros HT.
  assert (Hne : truthy_str dt_string = true) by (destruct dt_string; [discriminate | reflexivity]).
  assert (HT' : contains_char "T" (replace_char "Z" "+00:00" dt_string) = true)
    by now rewrite replace_Z_keeps_T.
  assert (Hne' : truthy_str (replace_char "Z" "+00:00" dt_string) = true).
  { destruct (replace_char "Z" "+00:00" dt_string); [discriminate | reflexivity]. }
  unfold _parse_datetime. rewrite Hne, Hne', HT, HT'.
  rewrite (replace_Z_id (replace_char "Z" "+00:00" dt_string)) by apply replace_Z_no_Z.
  split; [|split].
  - now destruct (fromisoformat _).
  - apply replace_Z_no_Z.
  - now destruct (fromisoformat _).
Qed.

Lemma parse_datetime_utc_suffix_witness :
  (_parse_datetime strict_parser (Some "2025-01-01T10:00:00Z")).1
  = (_parse_datetime strict_parser
       (Some (replace_char "Z" "+00:00" "2025-01-01T10:00:00Z"))).1
  /\ contains_char "Z" (replace_char "Z" "+00:00" "2025-01-01T10:00:00Z") = false
  /\ (_parse_datetime strict_parser (Some "2025-01-01T10:00:00Z")).1
     = match strict_parser (replace_char "Z" "+00:00" "2025-01-01T10:00:00Z") with
       | inr dt => Some dt
       | inl _ => None
       end.
Proof.
  apply (parse_datetime_utc_suffix strict_parser "2025-01-01T10:00:00Z").
  reflexivity.
Defined.

(** ** [get_upcoming_events] *)

Lemma built_event_id (fromisoformat : string -> string + datetime)
    (event_data : EventData.t) :
  GoogleCalendarEvent.id (GoogleCalendarEvent__init__ fromisoformat event_data).1
  = default "" (EventData.id event_data).
Proof.
  unfold GoogleCalendarEvent__init__.
  destruct (_parse_datetime fromisoformat _) as [start_time start_warnings].
  destruct (_parse_datetime fromisoformat _) as [end_time end_warnings].
  reflexivity.
Qed.

(** [get_upcoming_events] swallows nothing.  Without a service it raises
    [RuntimeError] and asks nothing.  With one, when the date arithmetic for
    [time_max] overflows, that error is raised and no request is executed;
    otherwise exactly one request is executed: when it raises, the same
    exception is raised; when it is answered, one event is returned per item
    of the answer, in the order of the answer and with the ids of the items
    (the empty id for an item without one), and no event when the answer has
    no ["items"]. *)
Theorem get_upcoming_events_outcome (now : UtcNow)
    (fromisoformat : string -> string + datetime) (days_ahead max_results : Z)
    (g : GoogleCalendarClient) :
  let outcome := get_upcoming_events now fromisoformat days_ahead max_results g in
  (service g = None ->
   outcome = (Raised (RuntimeError "Not authenticated. Call authenticate() first."), g))
  /\ (forall svc, service g = Some svc ->
        (forall overflow,
           plus_days_isoformat now days_ahead = inl overflow ->
           outcome.1 = Raised (OtherPyException overflow)
           /\ requests outcome.2 = requests g)
        /\ (forall later,
              plus_days_isoformat now days_ahead = inr later ->
              let request := upcoming_request now g (later ++ "Z") max_results in
              requests outcome.2 = (requests g ++ [request])%list
              /\ (forall e, execute_events_list svc request = inl e ->
                            outcome.1 = Raised e)
              /\ (forall items, execute_events_list svc request = inr items ->
                    exists events,
                      outcome.1 = Returned events
                      /\ List.map GoogleCalendarEvent.id events
                         = List.map
                             (fun event_data => default "" (EventData.id event_data))
                             (default [] items)
                      /\ length events = length (default [] items)))).
Proof.
  intros outcome. subst outcome. unfold get_upcoming_events.
  split.
  - now intros ->.
  - intros svc ->. split.
    + intros overflow ->. now split.
    + intros later Hlater. rewrite Hlater. cbv zeta.
      set (request := upcoming_request now g (later ++ "Z") max_results).
      destruct (execute_events_list svc request) as [e|items] eqn:Hex.
      * split; [reflexivity|]. split; [now intros e' [= <-] | discriminate].
      * split; [reflexivity|]. split; [discriminate|].
        intros items' [= <-]. eexists. split; [reflexivity|]. split.
        -- rewrite !List.map_map. apply List.map_ext. intros event_data.
           apply built_event_id.
        -- now rewrite !length_map.
Qed.

(** ** [sync_once] *)

(** The dict of [sync_events] has no key ["updated"]: the log call that
    follows the sync raises [KeyError] and logs nothing. *)
Lemma log_sync_completed_raises (stats : Stats) (s : CalendarSyncService) :
  log_sync_completed stats s = (Raised (KeyError "updated"), s).
Proof. reflexivity. Qed.

(** After a sync, [sync_once] raises.  When the calendar returns at least
    one event, [sync_events] runs on the Discord client, whose state is kept,
    and then the summary log reads the key ["updated"], which the counts of
    [sync_events] do not have: [sync_once] logs [sync_failed] with the error
    ['updated'] and raises [KeyError], whatever the sync has done. *)
Theorem sync_once_raises_after_sync (now : UtcNow)
    (fromisoformat : string -> string + datetime) (self : CalendarSyncService)
    (gcal gcal' : GoogleCalendarClient) (discord : DiscordClient)
    (events : list GoogleCalendarEvent.t) :
  gcal_client self = Some gcal ->
  discord_client self = Some discord ->
  get_upcoming_events now fromisoformat (days_ahead (settings self)) 100 gcal
  = (Returned events, gcal') ->
  events <> [] ->
  exists stats discord' self',
    sync_events events true discord = (Return stats, discord')
    /\ sync_once now fromisoformat self = (Raised (KeyError "updated"), self')
    /\ discord_client self' = Some discord'
    /\ gcal_client self' = Some gcal'
    /\ last (service_logger self')
       = Some {| level := Error; event := "sync_failed";
                 kwargs := [("error", LStr "'updated'"); ("exc_info", LInt 1)] |}.
Proof.
  intros Hg Hd Hget Hne.
  destruct (sync_events_returns events true discord) as (stats & discord' & Hsync & _).
  exists stats, discord'. unfold sync_once. rewrite Hg, Hd. cbn [settings service_emit].
  rewrite Hget. destruct events as [|event events]; [congruence|].
  rewrite Hsync, log_sync_completed_raises. unfold sync_once_handler.
  eexists. split; [reflexivity|]. split; [reflexivity|]. cbn. repeat split.
  apply last_snoc.
Qed.

(** [sync_once] returns only when there was nothing to sync: if it returns,
    the calendar has returned no event and the Discord client has not been
    touched. *)
Theorem sync_once_returns_without_events (now : UtcNow)
    (fromisoformat : string -> string + datetime) (self self' : CalendarSyncService) :
  sync_once now fromisoformat self = (Returned tt, self') ->
  discord_client self' = discord_client self
  /\ exists gcal gcal',
       gcal_client self = Some gcal
       /\ get_upcoming_events now fromisoformat (days_ahead (settings self)) 100 gcal
          = (Returned [], gcal')
       /\ gcal_client self' = Some gcal'.
Proof.
  unfold sync_once.
  destruct (gcal_client self) as [gcal|] eqn:Hg; [|discriminate].
  destruct (discord_client self) as [discord|] eqn:Hd; [|discriminate].
  cbn [settings service_emit].
  destruct (get_upcoming_events now fromisoformat (days_ahead (settings self)) 100 gcal)
    as [[events|e] gcal'] eqn:Hget; [|discriminate].
  destruct events as [|event events].
  - intros [= <-]. cbn. rewrite Hd. split; [reflexivity|]. now exists gcal, gcal'.
  - destruct (sync_events_returns (event :: events) true discord)
      as (stats & discord' & Hsync & _).
    rewrite Hsync, log_sync_completed_raises. discriminate.
Qed.

(** * The further properties on the sample data *)

Lemma delete_then_upsert_finds_link_witness :
  event_message_map (delete_event_message "new_event_123" posted_client).2
    !! "new_event_123" = None
  /\ exists c2,
       upsert_event test_event (delete_event_message "new_event_123" posted_client).2
       = (Return (Some 5000), c2)
       /\ calls c2 = calls (delete_event_message "new_event_123" posted_client).2
       /\ event_message_map c2 !! "new_event_123" = Some 5000.
Proof.
  apply (delete_then_upsert_finds_link test_event posted_client
           (delete_event_message "new_event_123" posted_client).2 5000).
  - discriminate.
  - vm_compute. reflexivity.
  - lia.
  - vm_compute. reflexivity.
Defined.

Lemma upsert_event_same_id_witness :
  exists c2,
    upsert_event test_event_retitled (upsert_event test_event fresh_client).2
    = (Return (Some 6000), c2)
    /\ calls c2 = calls (upsert_event test_event fresh_client).2
    /\ event_message_map c2 = event_message_map (upsert_event test_event fresh_client).2
    /\ _url_to_message_map c2 = _url_to_message_map (upsert_event test_event fresh_client).2.
Proof.
  apply (upsert_event_same_id test_event test_event_retitled fresh_client
           (upsert_event test_event fresh_client).2 quiet_channel 6000).
  - reflexivity.
  - vm_compute. reflexivity.
  - lia.
  - reflexivity.
Defined.

Lemma upsert_event_same_link_witness :
  exists c1 c2,
    upsert_event brand_new_event fresh_client = (Return (Some 6000), c1)
    /\ upsert_event twin_event c1 = (Return (Some 6000), c2)
    /\ calls c2 = calls c1
    /\ event_message_map c2 !! "brand_new_event" = Some 6000
    /\ event_message_map c2 !! "brand_new_event_copy" = Some 6000.
Proof.
  apply (upsert_event_same_link brand_new_event twin_event fresh_client quiet_channel
           mock_new_message).
  - reflexivity.
  - vm_compute. reflexivity.
  - reflexivity.
  - discriminate.
  - discriminate.
  - reflexivity.
  - discriminate.
  - vm_compute. reflexivity.
Defined.

Lemma sync_events_send_accounting_witness :
  exists stats c',
    sync_events [brand_new_event; twin_event] true fresh_client = (Return stats, c')
    /\ count_sends (calls c') = count_sends (calls fresh_client) + created stats + failed stats.
Proof.
  apply (sync_events_send_accounting [brand_new_event; twin_event] true fresh_client
           quiet_channel).
  reflexivity.
Defined.

Lemma sync_events_no_channel_witness :
  exists c',
    sync_events [brand_new_event; twin_event] true new_client
    = (Return {| total := 2; created := 0; skipped := 0; failed := 2 |}, c')
    /\ calls c' = calls new_client
    /\ event_message_map c' = event_message_map new_client
    /\ _url_to_message_map c' = _url_to_message_map new_client.
Proof.
  apply (sync_events_no_channel [brand_new_event; twin_event] true new_client).
  reflexivity.
Defined.

(** The scenario of the two scanned messages: both events are skipped. *)
Lemma sync_events_after_history_witness :
  exists c',
    sync_events [event1; event2] true two_links_client
    = (Return {| total := 2; created := 0; skipped := 2; failed := 0 |}, c')
    /\ calls c' = [CallHistory 200].
Proof.
  apply (sync_events_after_history [event1; event2] two_links_client
           (mock_channel [mock_message_1; mock_message_2] None (inr mock_new_message))
           [mock_message_1; mock_message_2] None).
  - reflexivity.
  - reflexivity.
  - intros event [<- | [<- | []]].
    + split; [discriminate|]. exists 1001. split; [vm_compute; reflexivity | lia].
    + split; [discriminate|]. exists 1002. split; [vm_compute; reflexivity | lia].
Defined.

Lemma rebuild_event_mapping_repeatable_witness :
  exists c1 c2,
    rebuild_event_mapping 200 two_links_client = (Return tt, c1)
    /\ rebuild_event_mapping 200 c1 = (Return tt, c2)
    /\ event_message_map c2 = event_message_map c1
    /\ _url_to_message_map c2 = _url_to_message_map c1.
Proof.
  apply (rebuild_event_mapping_repeatable 200 two_links_client
           (mock_channel [mock_message_1; mock_message_2] None (inr mock_new_message))
           [mock_message_1; mock_message_2] None None); reflexivity.
Defined.

(** One event in the calendar: it is posted, and [sync_once] raises. *)
Lemma sync_once_raises_after_sync_witness :
  exists stats discord' self',
    sync_events [(GoogleCalendarEvent__init__ strict_parser raw_event).1] true fresh_client
    = (Return stats, discord')
    /\ sync_once sample_now strict_parser (sample_service [raw_event])
       = (Raised (KeyError "updated"), self')
    /\ discord_client self' = Some discord'
    /\ gcal_client self'
       = Some (get_upcoming_events sample_now strict_parser 7 100
                 (calendar_with [raw_event])).2
    /\ last (service_logger self')
       = Some {| level := Error; event := "sync_failed";
                 kwargs := [("error", LStr "'updated'"); ("exc_info", LInt 1)] |}.
Proof.
  apply (sync_once_raises_after_sync sample_now strict_parser (sample_service [raw_event])
           (calendar_with [raw_event])
           (get_upcoming_events sample_now strict_parser 7 100 (calendar_with [raw_event])).2
           fresh_client).
  - reflexivity.
  - reflexivity.
  - reflexivity.
  - discriminate.
Defined.

Lemma sync_once_returns_without_events_witness :
  discord_client (sync_once sample_now strict_parser (sample_service [])).2
  = discord_client (sample_service [])
  /\ exists gcal gcal',
       gcal_client (sample_service []) = Some gcal
       /\ get_upcoming_events sample_now strict_parser
            (days_ahead (settings (sample_service []))) 100 gcal
          = (Returned [], gcal')
       /\ gcal_client (sync_once sample_now strict_parser (sample_service [])).2
          = Some gcal'.
Proof.
  apply (sync_once_returns_without_events sample_now strict_parser (sample_service [])).
  reflexivity.
Defined.

(** One item in the answer: one event, with the id of the item; a look
    ahead that the clock cannot add: an error and no request. *)
Lemma get_upcoming_events_outcome_witness :
  (requests (get_upcoming_events sample_now strict_parser 7 100
               (calendar_with [raw_event])).2
   = [upcoming_request sample_now (calendar_with [raw_event]) "2025-01-08T10:00:00Z" 100]
   /\ exists events,
        (get_upcoming_events sample_now strict_parser 7 100 (calendar_with [raw_event])).1
        = Returned events
        /\ List.map GoogleCalendarEvent.id events = ["brand_new_event"]
        /\ length events = 1%nat)
  /\ (get_upcoming_events sample_now strict_parser 4000000 100
        (calendar_with [raw_event])).1
     = Raised (OtherPyException "date value out of range")
  /\ requests (get_upcoming_events sample_now strict_parser 4000000 100
                 (calendar_with [raw_event])).2 = [].
Proof.
  split.
  - destruct (proj2 (proj2 (get_upcoming_events_outcome sample_now strict_parser 7 100
                              (calendar_with [raw_event]))
                       {| execute_events_list := fun _ => inr (Some [raw_event]) |} eq_refl)
                "2025-01-08T10:00:00" eq_refl)
      as (Hreq & _ & Hitems).
    split; [exact Hreq|]. apply (Hitems (Some [raw_event])). reflexivity.
  - apply (proj1 (proj2 (get_upcoming_events_outcome sample_now strict_parser 4000000 100
                           (calendar_with [raw_event]))
                    {| execute_events_list := fun _ => inr (Some [raw_event]) |} eq_refl)
             "date value out of range" eq_refl).
Defined.

(** ** [to_discord_embed]: the limit of Discord on a field value *)

(** Whatever the description of an event, the description field, when there
    is one, has a value of 1 to 1024 characters. *)
Theorem description_field_bounded (self : GoogleCalendarEvent.t) (v : string) :
  field_value "📝 Description" (GoogleCalendarEvent.to_discord_embed self) = Some v ->
  v <> "" /\ (String.length v <= 1024)%nat.
Proof.
  rewrite field_value_description.
  unfold GoogleCalendarEvent.description_fields, GoogleCalendarEvent.truncate_description.
  destruct (GoogleCalendarEvent.description self) as [d|]; [|discriminate].
  destruct (truthy_str d) eqn:Ht; [|discriminate].
  cbn [head fmap option_fmap option_map EmbedField.value].
  destruct (1024 <? String.length d)%nat eqn:Hlen;
    intros Hv; apply (inj Some) in Hv; subst v.
  - apply Nat.ltb_lt in Hlen. split.
    + intros Heq. apply (f_equal String.length) in Heq.
      rewrite length_append, length_slice_to in Heq by lia. cbn in Heq. lia.
    + rewrite length_append, length_slice_to by lia. cbn. lia.
  - apply Nat.ltb_ge in Hlen. split; [now apply truthy_str_nonempty | assumption].
Qed.

Lemma description_field_bounded_witness :
  slice_to 1021 (letters 1030) ++ "..." <> ""
  /\ (String.length (slice_to 1021 (letters 1030) ++ "...") <= 1024)%nat.
Proof.
  apply (description_field_bounded long_event).
  vm_compute. reflexivity.
Defined.
